(** * Starlette responses: header synthesis and the ASGI send protocol

    A shallow embedding of [starlette/response.py]: the classes [Response]
    (with [HTMLResponse] and [PlainTextResponse]), [StreamingResponse] and
    [FileResponse], their constructors and their [__call__] coroutines.

    - A Python [str] is a [string]: one [ascii] per code point, so the
      embedding covers the text whose code points are below 256, which is
      the text that [encode("latin-1")] accepts.  [bytes] is [list byte].
    - A [dict] of headers is an association list in insertion order (the
      order [items()] yields); its keys are pairwise distinct.
    - An exception is a value of [exn]; fallible code returns [exn + A].
    - A coroutine is a computation in the monad [io], which records every
      awaited operation (a [send], a [stat], a file [read]) in a log, in
      the order the operations are awaited.  The channel accepts every
      message: [send] does not raise.
    - [JSONResponse] renders with [starlette.utils.encode_json]; it is left
      out, as are the functions of [starlette.datastructures] other than
      [MutableHeaders.setdefault]. *)

From Stdlib Require Import Strings.String Strings.Ascii Strings.Byte.
From Stdlib Require Import ZArith NArith List Lia DecimalString DecimalN.
From stdpp Require Import base list strings gmap.
From Equations Require Import Equations.
From Equations.Prop Require Import Logic.
Import ListNotations.
Open Scope string_scope.
Open Scope list_scope.

(** ** Text and bytes *)

Definition bytes : Type := list byte.

#[global] Instance byte_eq_decision : EqDecision byte := byte_eq_dec.

(** [s.encode("latin-1")]: every code point becomes the byte of that value. *)
Definition encode_latin1 (s : string) : bytes := list_byte_of_string s.

(** A bytes literal [b"..."]. *)
Notation "'b_' s" := (encode_latin1 s) (at level 1, s at level 0, format "'b_' s").

(** [c.lower()] for one code point below 256: the letters [A]-[Z] and the
    Latin-1 capitals U+00C0-U+00DE (the multiplication sign U+00D7 apart)
    move up by 32. *)
Definition lower_char (c : ascii) : ascii :=
  let n := N_of_ascii c in
  if ((65 <=? n) && (n <=? 90) || (192 <=? n) && (n <=? 222) && negb (n =? 215))%N
  then ascii_of_N (n + 32)
  else c.

(** [s.lower()]. *)
Fixpoint lower (s : string) : string :=
  match s with
  | EmptyString => EmptyString
  | String c s' => String (lower_char c) (lower s')
  end.

(** The UTF-8 bytes of one code point below 256: one byte below 128, else
    the two bytes [110xxxxx 10xxxxxx]. *)
Definition utf8_char (c : ascii) : bytes :=
  let n := N_of_ascii c in
  if (n <? 128)%N then [byte_of_ascii c]
  else [byte_of_ascii (ascii_of_N (192 + n / 64)); byte_of_ascii (ascii_of_N (128 + n mod 64))].

(** [s.encode("utf-8")]. *)
Fixpoint encode_utf8 (s : string) : bytes :=
  match s with
  | EmptyString => []
  | String c s' => utf8_char c ++ encode_utf8 s'
  end.

(** The one-character [str] of the double quote. *)
Definition dquote : string := String (ascii_of_N 34) EmptyString.

(** [s.startswith(p)]. *)
Definition startswith (s p : string) : bool := String.prefix p s.

(** [str(n)] for a non-negative [int]: its decimal digits. *)
Definition str_int (n : N) : string := NilEmpty.string_of_uint (N.to_uint n).

(** [int(s)], where [s] is a string of decimal digits. *)
Definition int_of_str (s : string) : option N :=
  option_map N.of_uint (NilEmpty.uint_of_string s).

(** ** Values, exceptions, messages *)

(** The values handed to a response as content or as a chunk: [bytes],
    [str], and values of the types that have no [encode] attribute. *)
Inductive value : Type :=
| Bytes (data : bytes)
| Str (s : string)
| NoneValue
| Int (z : Z)
| ByteArray (data : bytes).

Inductive exn : Type :=
| AttributeError      (* [content.encode] on a value without [encode] *)
| FileNotFoundError   (* [stat] or [open] of a path that does not exist *)
| TypeError.          (* [async for] over a value that has no [__aiter__] *)

(** What a [StreamingResponse] is given as content: an asynchronous
    iterable, with the chunks its iterator produces, in order; or a value
    that has no [__aiter__], such as a list, a tuple or a generator, with its
    items. *)
Inductive iterable : Type :=
| AsyncIterable (chunks : list value)
| Iterable (items : list value).

Definition header : Type := bytes * bytes.

(** The insertion-ordered items of a [dict] from [str] to [str]. *)
Definition dict : Type := list (string * string).

(** The two ASGI messages a response sends.  [more_body] is [None] when
    the message [dict] has no ["more_body"] key. *)
Inductive message : Type :=
| Start (status : Z) (headers : list header)
| Body (body : bytes) (more_body : option bool).

(** What an ASGI server reads from a body message:
    [message.get("more_body", False)]. *)
Definition more (m : message) : bool :=
  match m with
  | Body _ (Some flag) => flag
  | _ => false
  end.

Definition is_body (m : message) : bool :=
  match m with
  | Body _ _ => true
  | Start _ _ => false
  end.

(** ** Coroutines *)

Inductive event : Type :=
| EvStat (path : string)       (* [await aio_stat(path)] *)
| EvSend (m : message)         (* [await send(m)] *)
| EvOpen (path : string)       (* entering [async with aiofiles.open(path, mode="rb")] *)
| EvRead (size : nat)          (* [await file.read(size)] *)
| EvClose.                     (* leaving the [async with] block *)

(** A coroutine: the operations it awaited, in order, and how it ended. *)
Definition io (A : Type) : Type := list event * (exn + A).

Definition ret {A} (a : A) : io A := ([], inr a).

Definition raise {A} (e : exn) : io A := ([], inl e).

Definition bind {A B} (m : io A) (k : A -> io B) : io B :=
  match m with
  | (log, inl e) => (log, inl e)
  | (log, inr a) => let '(log', r) := k a in (log ++ log', r)
  end.

Declare Scope io_scope.
Delimit Scope io_scope with io.
Notation "x <- m ;; k" := (bind m (fun x => k))
  (at level 100, m at next level, right associativity) : io_scope.
Notation "m ;;; k" := (bind m (fun _ => k))
  (at level 100, right associativity) : io_scope.

(** [await send(m)]. *)
Definition send (m : message) : io unit := ([EvSend m], inr tt).

(** The messages a coroutine sent, in order. *)
Definition sent (log : list event) : list message :=
  omap (fun ev => match ev with EvSend m => Some m | _ => None end) log.

(** ** class Response *)

Module Response.

(** The class attributes [media_type] and [charset]; [HTMLResponse] and
    [PlainTextResponse] override the first and inherit everything else. *)
Inductive cls : Type := Response | HTMLResponse | PlainTextResponse.

Definition cls_media_type (c : cls) : option string :=
  match c with
  | Response => None
  | HTMLResponse => Some "text/html"
  | PlainTextResponse => Some "text/plain"
  end.

Definition charset : string := "utf-8".

Record t : Type :=
  { body : bytes;
    status_code : Z;
    media_type : option string;
    raw_headers : list header }.

(** [render]: [bytes] as they are, otherwise [content.encode(self.charset)];
    a value without [encode] raises [AttributeError]. *)
Definition render (content : value) : exn + bytes :=
  match content with
  | Bytes data => inr data
  | Str s => inr (encode_utf8 s)
  | NoneValue | Int _ | ByteArray _ => inl AttributeError
  end.

(** [init_headers], shared by the three classes.  [body] is
    [getattr(self, "body", None)] and [media_type] is [self.media_type]. *)
Definition init_headers (body : option bytes) (media_type : option string)
    (headers : option dict) : list header :=
  let '(raw_headers, populate_content_length, populate_content_type) :=
    match headers with
    | None => ([], true, true)
    | Some items =>
        let raw_headers :=
          (fun '(k, v) => (encode_latin1 (lower k), encode_latin1 v)) <$> items in
        let keys := fst <$> raw_headers in
        (raw_headers,
         bool_decide (b_"content-length" ∈ keys),
         bool_decide (b_"content-type" ∈ keys))
    end in
  let raw_headers :=
    match body with
    | Some body =>
        if populate_content_length then
          let content_length := str_int (N.of_nat (length body)) in
          raw_headers ++ [(b_"content-length", encode_latin1 content_length)]
        else raw_headers
    | None => raw_headers
    end in
  match media_type with
  | Some content_type =>
      if populate_content_type then
        let content_type :=
          if startswith content_type "text/"
          then content_type +:+ "; charset=" +:+ charset
          else content_type in
        raw_headers ++ [(b_"content-type", encode_latin1 content_type)]
      else raw_headers
  | None => raw_headers
  end.

(** [__init__]. *)
Definition init (c : cls) (content : value) (status_code : Z)
    (headers : option dict) (media_type : option string) : exn + t :=
  match render content with
  | inl e => inl e
  | inr body =>
      let media_type :=
        match media_type with
        | Some m => Some m
        | None => cls_media_type c
        end in
      inr {| body := body;
             status_code := status_code;
             media_type := media_type;
             raw_headers := init_headers (Some body) media_type headers |}
  end.

(** [__call__]. *)
Definition call (self : t) : io unit :=
  (send (Start (status_code self) (raw_headers self)) ;;;
   send (Body (body self) None))%io.

End Response.

(** ** class StreamingResponse *)

Module StreamingResponse.

Record t : Type :=
  { body_iterator : iterable;
    status_code : Z;
    media_type : option string;
    raw_headers : list header }.

(** [__init__].  The class inherits [media_type = None]; no [body]
    attribute is set, so [init_headers] sees [None] for it. *)
Definition init (content : iterable) (status_code : Z)
    (headers : option dict) (media_type : option string) : t :=
  let media_type :=
    match media_type with
    | None => Response.cls_media_type Response.Response
    | Some m => Some m
    end in
  {| body_iterator := content;
     status_code := status_code;
     media_type := media_type;
     raw_headers := Response.init_headers None media_type headers |}.

(** The body of the [async for] loop, up to the [send]. *)
Definition encode_chunk (chunk : value) : io bytes :=
  match chunk with
  | Bytes data => ret data
  | Str s => ret (encode_utf8 s)
  | NoneValue | Int _ | ByteArray _ => raise AttributeError
  end.

(** The [async for] loop over the chunks an asynchronous iterator
    produces. *)
Fixpoint stream (chunks : list value) : io unit :=
  match chunks with
  | [] => ret tt
  | chunk :: rest =>
      (data <- encode_chunk chunk ;;
       send (Body data (Some true)) ;;;
       stream rest)%io
  end.

(** [async for chunk in content: ...]: the statement asks the content for
    its [__aiter__] first, and raises [TypeError] when it has none. *)
Definition async_for (content : iterable) : io unit :=
  match content with
  | AsyncIterable chunks => stream chunks
  | Iterable _ => raise TypeError
  end.

(** [__call__]. *)
Definition call (self : t) : io unit :=
  (send (Start (status_code self) (raw_headers self)) ;;;
   async_for (body_iterator self) ;;;
   send (Body [] (Some false)))%io.

End StreamingResponse.

(** ** The library functions [FileResponse] calls *)

(** The two fields of [os.stat_result] that are read; [float] is the type
    of [st_mtime]. *)
Record stat_result_of (float : Type) : Type :=
  { st_size : N; st_mtime : float }.
Arguments st_size {float} _.
Arguments st_mtime {float} _.

(** The functions of the Python standard library, and its [float]. *)
Class Platform : Type :=
  { float : Type;
    str_float : float -> string;           (* [str(x)] *)
    formatdate : float -> string;          (* [email.utils.formatdate(x, usegmt=True)] *)
    md5_hexdigest : bytes -> string;       (* [hashlib.md5(data).hexdigest()] *)
    guess_type : string -> option string   (* [mimetypes.guess_type(name)[0]] *) }.

(** *** A platform to run the embedding on

    [hashlib.md5], and [email.utils.formatdate] and [str] for the
    modification times that are whole seconds since the epoch. *)

Module MD5.
Local Open Scope N_scope.

Definition add32 (x y : N) : N := (x + y) mod 2 ^ 32.
Definition not32 (x : N) : N := N.lxor x 0xffffffff.
Definition rotl32 (x c : N) : N :=
  N.lor (N.shiftl x c mod 2 ^ 32) (N.shiftr x (32 - c)).

Definition s : list N :=
  [7; 12; 17; 22; 7; 12; 17; 22; 7; 12; 17; 22; 7; 12; 17; 22;
   5; 9; 14; 20; 5; 9; 14; 20; 5; 9; 14; 20; 5; 9; 14; 20;
   4; 11; 16; 23; 4; 11; 16; 23; 4; 11; 16; 23; 4; 11; 16; 23;
   6; 10; 15; 21; 6; 10; 15; 21; 6; 10; 15; 21; 6; 10; 15; 21].

Definition K : list N :=
  [0xd76aa478; 0xe8c7b756; 0x242070db; 0xc1bdceee;
   0xf57c0faf; 0x4787c62a; 0xa8304613; 0xfd469501;
   0x698098d8; 0x8b44f7af; 0xffff5bb1; 0x895cd7be;
   0x6b901122; 0xfd987193; 0xa679438e; 0x49b40821;
   0xf61e2562; 0xc040b340; 0x265e5a51; 0xe9b6c7aa;
   0xd62f105d; 0x02441453; 0xd8a1e681; 0xe7d3fbc8;
   0x21e1cde6; 0xc33707d6; 0xf4d50d87; 0x455a14ed;
   0xa9e3e905; 0xfcefa3f8; 0x676f02d9; 0x8d2a4c8a;
   0xfffa3942; 0x8771f681; 0x6d9d6122; 0xfde5380c;
   0xa4beea44; 0x4bdecfa9; 0xf6bb4b60; 0xbebfbc70;
   0x289b7ec6; 0xeaa127fa; 0xd4ef3085; 0x04881d05;
   0xd9d4d039; 0xe6db99e5; 0x1fa27cf8; 0xc4ac5665;
   0xf4292244; 0x432aff97; 0xab9423a7; 0xfc93a039;
   0x655b59c3; 0x8f0ccc92; 0xffeff47d; 0x85845dd1;
   0x6fa87e4f; 0xfe2ce6e0; 0xa3014314; 0x4e0811a1;
   0xf7537e82; 0xbd3af235; 0x2ad7d2bb; 0xeb86d391].

(** The message padded to a multiple of 64 bytes: a [0x80] byte, zero
    bytes, and the length in bits as 8 little-endian bytes. *)
Definition le_bytes (count : nat) (x : N) : list N :=
  (fun i => N.shiftr x (8 * N.of_nat i) mod 256) <$> seq 0 count.

Definition pad (message : list N) : list N :=
  let len := N.of_nat (length message) in
  let zeros := N.to_nat ((119 - len mod 64) mod 64) in
  message ++ [128] ++ replicate zeros 0 ++ le_bytes 8 (8 * len).

(** A little-endian 32-bit word from 4 bytes. *)
Definition word (bs : list N) : N :=
  foldr (fun b acc => b + 256 * acc) 0 bs.

Fixpoint words (count : nat) (bs : list N) : list N :=
  match count with
  | O => []
  | S count' => word (take 4 bs) :: words count' (drop 4 bs)
  end.

Definition state : Type := N * N * N * N.

Definition round (M : list N) (st : state) (i : nat) : state :=
  let '(A, B, C, D) := st in
  let n := N.of_nat i in
  let '(F, g) :=
    if n <? 16 then (N.lor (N.land B C) (N.land (not32 B) D), n)
    else if n <? 32 then (N.lor (N.land D B) (N.land (not32 D) C), (5 * n + 1) mod 16)
    else if n <? 48 then (N.lxor B (N.lxor C D), (3 * n + 5) mod 16)
    else (N.lxor C (N.lor B (not32 D)), (7 * n) mod 16) in
  let F := add32 (add32 (add32 F A) (K !!! i)) (M !!! N.to_nat g) in
  (D, add32 B (rotl32 F (s !!! i)), B, C).

Definition block (st : state) (M : list N) : state :=
  let '(a0, b0, c0, d0) := st in
  let '(A, B, C, D) := foldl (round M) st (seq 0 64) in
  (add32 a0 A, add32 b0 B, add32 c0 C, add32 d0 D).

Fixpoint blocks (count : nat) (st : state) (bs : list N) : state :=
  match count with
  | O => st
  | S count' => blocks count' (block st (words 16 (take 64 bs))) (drop 64 bs)
  end.

Definition digest (message : bytes) : list N :=
  let padded := pad (Byte.to_N <$> message) in
  let '(A, B, C, D) :=
    blocks (length padded / 64)%nat
      (0x67452301, 0xefcdab89, 0x98badcfe, 0x10325476) padded in
  le_bytes 4 A ++ le_bytes 4 B ++ le_bytes 4 C ++ le_bytes 4 D.

Definition hex_digit (n : N) : ascii :=
  if n <? 10 then ascii_of_N (48 + n) else ascii_of_N (87 + n).

Fixpoint hex (bs : list N) : string :=
  match bs with
  | [] => EmptyString
  | b :: bs' => String (hex_digit (b / 16)) (String (hex_digit (b mod 16)) (hex bs'))
  end.

Definition hexdigest (message : bytes) : string := hex (digest message).
End MD5.

Module HTTPDate.
Local Open Scope Z_scope.

Definition weekdays : list string := ["Mon"; "Tue"; "Wed"; "Thu"; "Fri"; "Sat"; "Sun"].
Definition months : list string :=
  ["Jan"; "Feb"; "Mar"; "Apr"; "May"; "Jun"; "Jul"; "Aug"; "Sep"; "Oct"; "Nov"; "Dec"].

(** Year, month and day of the proleptic Gregorian calendar for a number
    of days since 1970-01-01. *)
Definition civil (days : Z) : Z * Z * Z :=
  let z := days + 719468 in
  let era := z / 146097 in
  let doe := z mod 146097 in
  let yoe := (doe - doe / 1460 + doe / 36524 - doe / 146096) / 365 in
  let doy := doe - (365 * yoe + yoe / 4 - yoe / 100) in
  let mp := (5 * doy + 2) / 153 in
  let d := doy - (153 * mp + 2) / 5 + 1 in
  let m := if mp <? 10 then mp + 3 else mp - 9 in
  let y := yoe + era * 400 + (if m <=? 2 then 1 else 0) in
  (y, m, d).

(** [n] in decimal, padded with zeros on the left to [width] digits. *)
Definition zero_padded (width : nat) (n : Z) : string :=
  let digits := str_int (Z.to_N n) in
  string_of_list_ascii (replicate (width - String.length digits) "0"%char) +:+ digits.

(** 9999-12-31 23:59:59, the last second of the last year a [datetime]
    holds; [formatdate] raises [ValueError] for a later time. *)
Definition last_second : N := 253402300799%N.

(** Whole seconds since the epoch, up to [last_second]. *)
Definition seconds : Type := { t : N | (t <=? last_second)%N = true }.

(** [t] seconds since the epoch; [last_second] when [t] is beyond it. *)
Definition seconds_of (t : N) : seconds :=
  exist _ (N.min t last_second) (proj2 (N.leb_le _ _) (N.le_min_r t last_second)).

(** [formatdate(time, usegmt=True)]. *)
Definition format (time : seconds) : string :=
  let t := Z.of_N (proj1_sig time) in
  let days := t / 86400 in
  let rest := t mod 86400 in
  let '(y, m, d) := civil days in
  (weekdays !!! Z.to_nat ((days + 3) mod 7)) +:+ ", " +:+ zero_padded 2 d +:+ " "
    +:+ (months !!! Z.to_nat (m - 1)) +:+ " " +:+ zero_padded 4 y +:+ " "
    +:+ zero_padded 2 (rest / 3600) +:+ ":" +:+ zero_padded 2 (rest mod 3600 / 60)
    +:+ ":" +:+ zero_padded 2 (rest mod 60) +:+ " GMT".
End HTTPDate.

(** [s.partition(c)], as the parts before and after the first [c], when
    [s] has one. *)
Fixpoint str_partition (c : ascii) (s : string) : option (string * string) :=
  match s with
  | EmptyString => None
  | String a rest =>
      if Ascii.eqb a c then Some (EmptyString, rest)
      else
        match str_partition c rest with
        | Some (before, after) => Some (String a before, after)
        | None => None
        end
  end.

(** [s.rpartition(c)], as the parts before and after the last [c], when
    [s] has one. *)
Fixpoint str_rpartition (c : ascii) (s : string) : option (string * string) :=
  match s with
  | EmptyString => None
  | String a rest =>
      match str_rpartition c rest with
      | Some (before, after) => Some (String a before, after)
      | None => if Ascii.eqb a c then Some (EmptyString, rest) else None
      end
  end.

(** [c in s]. *)
Definition has_char (c : ascii) (s : string) : bool :=
  match str_partition c s with
  | Some _ => true
  | None => false
  end.

Fixpoint only_dots (s : string) : bool :=
  match s with
  | EmptyString => true
  | String a rest => Ascii.eqb a "."%char && only_dots rest
  end.

(** [posixpath.splitext(path)]: the extension runs from the last dot of the
    last component of the path, when a character other than a dot comes
    before that dot in the component; it is empty otherwise. *)
Definition splitext (path : string) : string * string :=
  let '(directory, component) :=
    match str_rpartition "/"%char path with
    | Some (before, after) => (before +:+ "/", after)
    | None => (EmptyString, path)
    end in
  match str_rpartition "."%char component with
  | Some (stem, after) =>
      if only_dots stem then (path, EmptyString)
      else (directory +:+ stem, String "."%char after)
  | None => (path, EmptyString)
  end.

(** [urllib.parse._splittype(url)]: the scheme, in lower case, of a name
    that starts with characters other than [/] and [:] followed by [:],
    and what follows it. *)
Definition splittype (url : string) : option string * string :=
  match str_partition ":"%char url with
  | Some (String a scheme, rest) =>
      if has_char "/"%char (String a scheme) then (None, url)
      else (Some (lower (String a scheme)), rest)
  | _ => (None, url)
  end.

(** The type a [data:] URL names, [text/plain] when it names none. *)
Definition data_type (url : string) : option string :=
  match str_partition ","%char url with
  | None => None
  | Some (before, _) =>
      let media :=
        match str_partition ";"%char before with
        | Some (media, _) => media
        | None => before
        end in
      Some (if has_char "="%char media || negb (has_char "/"%char media)
            then "text/plain" else media)
  end.

(** [table.get(key)]. *)
Fixpoint get (key : string) (table : list (string * string)) : option string :=
  match table with
  | [] => None
  | (k, v) :: rest => if String.eqb k key then Some v else get key rest
  end.

Definition suffix_map : list (string * string) :=
  [(".svgz", ".svg.gz"); (".tgz", ".tar.gz"); (".taz", ".tar.gz"); (".tz", ".tar.gz");
   (".tbz2", ".tar.bz2"); (".txz", ".tar.xz")].

Definition encodings_map : list (string * string) :=
  [(".gz", "gzip"); (".Z", "compress"); (".bz2", "bzip2"); (".xz", "xz"); (".br", "br")].

(** Some of the entries of the table of types of [mimetypes]. *)
Definition types_map : list (string * string) :=
  [(".txt", "text/plain"); (".html", "text/html"); (".htm", "text/html");
   (".css", "text/css"); (".csv", "text/csv"); (".json", "application/json");
   (".pdf", "application/pdf"); (".zip", "application/zip");
   (".bin", "application/octet-stream"); (".png", "image/png");
   (".jpg", "image/jpeg"); (".jpeg", "image/jpeg"); (".gif", "image/gif");
   (".mp3", "audio/mpeg"); (".tar", "application/x-tar");
   (".svg", "image/svg+xml")].

(** [mimetypes.guess_type(name)[0]], as CPython 3.11 computes it, over a
    table of types that holds the entries of [types_map] only.  The
    extension of an alias is replaced once: what [suffix_map] gives ends in
    an extension that is no alias.  CPython's own table has more entries,
    so for an extension that [types_map] lacks CPython may guess a type
    where this function answers [None]. *)
Definition guess_by_extension (name : string) : option string :=
  let '(scheme, url) := splittype name in
  if bool_decide (scheme = Some "data") then data_type url
  else
    let '(base, ext) := splitext url in
    let '(base, ext) :=
      match get (lower ext) suffix_map with
      | Some suffix => splitext (base +:+ suffix)
      | None => (base, ext)
      end in
    let '(base, ext) :=
      match get ext encodings_map with
      | Some _ => splitext base
      | None => (base, ext)
      end in
    get (lower ext) types_map.

Module MutableHeaders.

(** Modelled from the spec: [MutableHeaders.setdefault] of
    [starlette.datastructures], the set-if-absent operation of the header
    container.  The container is backed by the sequence that is
    transmitted, so the operation is a function on that sequence: it
    leaves the sequence as it is when an entry of that name exists and
    otherwise appends the entry, the name in lower case, both parts
    encoded as latin-1.  The names of the sequence are in lower case
    already, which is how the comparison ignores case. *)
Definition setdefault (key value : string) (raw_headers : list header) : list header :=
  let set_key := encode_latin1 (lower key) in
  if bool_decide (set_key ∈ fst <$> raw_headers) then raw_headers
  else raw_headers ++ [(set_key, encode_latin1 value)].

End MutableHeaders.

(** ** class FileResponse *)

Module FileResponse.
Section WithPlatform.
Context `{Platform}.

Definition stat_result : Type := stat_result_of float.

(** A file of the file system: what [stat] reports and what [read] yields. *)
Record file : Type :=
  { file_stat : stat_result;
    file_data : bytes }.

Definition chunk_size : nat := 4096.

Record t : Type :=
  { path : string;
    status_code : Z;
    filename : option string;
    media_type : string;
    raw_headers : list header;
    stat : option stat_result }.

Definition with_raw_headers (raw : list header) (self : t) : t :=
  {| path := path self;
     status_code := status_code self;
     filename := filename self;
     media_type := media_type self;
     raw_headers := raw;
     stat := stat self |}.

(** [set_stat_headers]; [self.headers] writes through to
    [self.raw_headers]. *)
Definition set_stat_headers (stat_result : stat_result) (self : t) : t :=
  let content_length := str_int (st_size stat_result) in
  let last_modified := formatdate (st_mtime stat_result) in
  let etag_base :=
    str_float (st_mtime stat_result) +:+ "-" +:+ str_int (st_size stat_result) in
  let etag := md5_hexdigest (encode_utf8 etag_base) in
  let raw := raw_headers self in
  let raw := MutableHeaders.setdefault "content-length" content_length raw in
  let raw := MutableHeaders.setdefault "last-modified" last_modified raw in
  let raw := MutableHeaders.setdefault "etag" etag raw in
  with_raw_headers raw self.

(** [guess_type(filename or path)[0] or "text/plain"]: an empty [str]
    counts as false on both sides. *)
Definition guess_media_type (filename : option string) (path : string) : string :=
  let name :=
    match filename with
    | Some f => if bool_decide (f = EmptyString) then path else f
    | None => path
    end in
  match guess_type name with
  | Some m => if bool_decide (m = EmptyString) then "text/plain" else m
  | None => "text/plain"
  end.

(** [__init__]. *)
Definition init (path : string) (headers : option dict)
    (media_type : option string) (filename : option string)
    (stat_result : option stat_result) : t :=
  let media_type :=
    match media_type with
    | None => guess_media_type filename path
    | Some m => m
    end in
  let raw := Response.init_headers None (Some media_type) headers in
  let raw :=
    match filename with
    | Some f =>
        let content_disposition := "attachment; filename=" +:+ dquote +:+ f +:+ dquote in
        MutableHeaders.setdefault "content-disposition" content_disposition raw
    | None => raw
    end in
  let self :=
    {| path := path;
       status_code := 200;
       filename := filename;
       media_type := media_type;
       raw_headers := raw;
       stat := stat_result |} in
  match stat_result with
  | Some st => set_stat_headers st self
  | None => self
  end.

(** [await aio_stat(path)]. *)
Definition aio_stat (fs : gmap string file) (path : string) : io stat_result :=
  ([EvStat path],
   match fs !! path with
   | Some f => inr (file_stat f)
   | None => inl FileNotFoundError
   end).

(** Entering [async with aiofiles.open(path, mode="rb") as file]: the
    bytes still to be read. *)
Definition aio_open (fs : gmap string file) (path : string) : io bytes :=
  match fs !! path with
  | Some f => ([EvOpen path], inr (file_data f))
  | None => ([], inl FileNotFoundError)
  end.

(** Leaving the [async with] block, on either exit. *)
Definition closing {A} (block : io A) : io A :=
  let '(log, r) := block in (log ++ [EvClose], r).

(** The [while more_body] loop over the bytes still to be read:
    [file.read(n)] yields the next [n] bytes, or all that are left. *)
Equations read_loop (rest : bytes) : list event by wf (length rest) lt :=
  read_loop rest with inspect (length (take chunk_size rest) =? chunk_size)%nat := {
    | exist _ true _ =>
        EvRead chunk_size
          :: EvSend (Body (take chunk_size rest) (Some false))
          :: read_loop (drop chunk_size rest)
    | exist _ false _ =>
        [EvRead chunk_size; EvSend (Body (take chunk_size rest) (Some false))] }.
Next Obligation.
  apply Nat.eqb_eq in e. rewrite length_drop. rewrite length_take in e.
  unfold chunk_size in *. lia.
Qed.

(** [__call__]; the result is [self] as the call leaves it. *)
Definition call (fs : gmap string file) (self : t) : io t :=
  (self <- match stat self with
           | None =>
               stat_result <- aio_stat fs (path self) ;;
               ret (set_stat_headers stat_result self)
           | Some _ => ret self
           end ;;
   send (Start (status_code self) (raw_headers self)) ;;;
   rest <- aio_open fs (path self) ;;
   closing (read_loop rest, inr tt) ;;;
   ret self)%io.

End WithPlatform.
End FileResponse.

(** Modification times are whole seconds from the epoch to the end of the
    year 9999: [str] of such a [float] is its digits followed by [".0"], and
    [formatdate] returns for it. *)
#[export] Instance whole_seconds : Platform :=
  {| float := HTTPDate.seconds;
     str_float := fun t => str_int (proj1_sig t) +:+ ".0";
     formatdate := HTTPDate.format;
     md5_hexdigest := MD5.hexdigest;
     guess_type := guess_by_extension |}.

(** What [stat] reports for a file of [size] bytes modified [mtime]
    seconds after the epoch, for an [mtime] up to [HTTPDate.last_second]. *)
Definition stat_of (size mtime : N) : FileResponse.stat_result :=
  {| st_size := size; st_mtime := HTTPDate.seconds_of mtime |}.

(** A file system with a five-byte file and a file one byte longer than a
    chunk. *)
Definition hello_txt : FileResponse.file :=
  {| FileResponse.file_stat := stat_of 5 1000;
     FileResponse.file_data := b_"hello" |}.

Definition big_bin : FileResponse.file :=
  {| FileResponse.file_stat := stat_of 4097 86400;
     FileResponse.file_data := replicate 4097 "000"%byte |}.

Definition sample_fs : gmap string FileResponse.file :=
  {[ "hello.txt" := hello_txt; "big.bin" := big_bin ]}.

(** ** The same coroutines on a channel that fails

    The channel accepts a number of messages, the budget, and raises on the
    [send] after them.  Nothing in the three [__call__] bodies catches an
    exception: it leaves the coroutine, through the [async with] block when
    it is raised inside it. *)

Inductive failure : Type :=
| Raised (e : exn)   (* an exception of the response's own code *)
| SendFailed.        (* the exception [send] raised *)

Module Failing.

(** A coroutine on such a channel: from the budget to the operations that
    took place, the outcome, and the budget left.  A [send] that raises
    leaves no event: the log holds the messages that were delivered. *)
Definition co (A : Type) : Type := nat → list event * (failure + A) * nat.

Definition ret {A} (a : A) : co A := λ budget, ([], inr a, budget).

Definition bind {A B} (m : co A) (k : A → co B) : co B := λ budget,
  match m budget with
  | (log, inl e, remaining) => (log, inl e, remaining)
  | (log, inr a, remaining) => let '(log', r, remaining') := k a remaining in (log ++ log', r, remaining')
  end.

(** [await send(m)]. *)
Definition send (m : message) : co unit := λ budget,
  match budget with
  | O => ([], inl SendFailed, O)
  | S remaining => ([EvSend m], inr tt, remaining)
  end.

(** A step that does not send. *)
Definition lift {A} (m : io A) : co A := λ budget,
  let '(log, r) := m in
  (log, match r with inl e => inl (Raised e) | inr a => inr a end, budget).

Declare Scope co_scope.
Delimit Scope co_scope with co.
Notation "x <- m ;; k" := (bind m (fun x => k))
  (at level 100, m at next level, right associativity) : co_scope.
Notation "m ;;; k" := (bind m (fun _ => k))
  (at level 100, right associativity) : co_scope.

(** [Response.__call__]. *)
Definition Response_call (self : Response.t) : co unit :=
  (send (Start (Response.status_code self) (Response.raw_headers self)) ;;;
   send (Body (Response.body self) None))%co.

(** The [async for] loop of [StreamingResponse.__call__]. *)
Fixpoint stream (chunks : list value) : co unit :=
  match chunks with
  | [] => ret tt
  | chunk :: rest =>
      (data <- lift (StreamingResponse.encode_chunk chunk) ;;
       send (Body data (Some true)) ;;;
       stream rest)%co
  end.

(** The [async for] statement of [StreamingResponse.__call__]. *)
Definition async_for (content : iterable) : co unit :=
  match content with
  | AsyncIterable chunks => stream chunks
  | Iterable _ => lift (raise TypeError)
  end.

(** [StreamingResponse.__call__]. *)
Definition StreamingResponse_call (self : StreamingResponse.t) : co unit :=
  (send (Start (StreamingResponse.status_code self) (StreamingResponse.raw_headers self)) ;;;
   async_for (StreamingResponse.body_iterator self) ;;;
   send (Body [] (Some false)))%co.

(** Leaving the [async with] block, on either exit. *)
Definition closing {A} (block : co A) : co A := λ budget,
  let '(log, r, remaining) := block budget in (log ++ [EvClose], r, remaining).

(** The [while more_body] loop of [FileResponse.__call__]. *)
Equations read_loop (rest : bytes) (budget : nat) : list event * (failure + unit) * nat
    by wf (length rest) lt :=
  read_loop rest budget
    with inspect (length (take FileResponse.chunk_size rest) =? FileResponse.chunk_size)%nat := {
    | exist _ true _ with budget := {
        | O => ([EvRead FileResponse.chunk_size], inl SendFailed, O)
        | S remaining =>
            let '(log, r, remaining') := read_loop (drop FileResponse.chunk_size rest) remaining in
            (EvRead FileResponse.chunk_size
               :: EvSend (Body (take FileResponse.chunk_size rest) (Some false))
               :: log,
             r, remaining') }
    | exist _ false _ with budget := {
        | O => ([EvRead FileResponse.chunk_size], inl SendFailed, O)
        | S remaining =>
            ([EvRead FileResponse.chunk_size;
              EvSend (Body (take FileResponse.chunk_size rest) (Some false))],
             inr tt, remaining) } }.
Next Obligation.
  apply Nat.eqb_eq in e. rewrite length_drop. rewrite length_take in e.
  unfold FileResponse.chunk_size in *. lia.
Qed.

(** [FileResponse.__call__]. *)
Definition FileResponse_call `{Platform} (fs : gmap string FileResponse.file)
    (self : FileResponse.t) : co FileResponse.t :=
  (self <- match FileResponse.stat self with
           | None =>
               stat_result <- lift (FileResponse.aio_stat fs (FileResponse.path self)) ;;
               ret (FileResponse.set_stat_headers stat_result self)
           | Some _ => ret self
           end ;;
   send (Start (FileResponse.status_code self) (FileResponse.raw_headers self)) ;;;
   rest <- lift (FileResponse.aio_open fs (FileResponse.path self)) ;;
   closing (read_loop rest) ;;;
   ret self)%co.

End Failing.

(** ** Vocabulary of the properties *)

(** A header name with the case of its letters removed. *)
Definition normalize (name : bytes) : bytes :=
  encode_latin1 (lower (string_of_list_byte name)).

(** The names of a header sequence, case removed. *)
Definition names (raw_headers : list header) : list bytes :=
  (normalize ∘ fst) <$> raw_headers.

(** The names the caller supplied, case removed. *)
Definition supplied (headers : option dict) : list string :=
  match headers with
  | None => []
  | Some items => (lower ∘ fst) <$> items
  end.

(** The value [init_headers] computes for [content-type]. *)
Definition content_type_of (media_type : string) : string :=
  if startswith media_type "text/"
  then media_type +:+ "; charset=" +:+ Response.charset
  else media_type.

(** The three headers [set_stat_headers] computes. *)
Definition cache_headers `{Platform} (st : FileResponse.stat_result) : list (string * string) :=
  [("content-length", str_int (st_size st));
   ("last-modified", formatdate (st_mtime st));
   ("etag",
    md5_hexdigest (encode_utf8 (str_float (st_mtime st) +:+ "-" +:+ str_int (st_size st))))].

(** A body message that ends the response. *)
Definition terminal (m : message) : bool := is_body m && negb (more m).

(** A value that is [bytes] or [str], and the bytes a chunk is sent as. *)
Definition is_bytes_or_str (chunk : value) : bool :=
  match chunk with
  | Bytes _ | Str _ => true
  | _ => false
  end.

Definition chunk_bytes (chunk : value) : bytes :=
  match chunk with
  | Bytes data => data
  | Str s => encode_utf8 s
  | _ => []
  end.

(** The caller's items as [init_headers] stores them: in the order of the
    mapping, each name in lower case, both parts encoded as latin-1. *)
Definition lowered (items : dict) : list header :=
  (fun '(k, v) => (encode_latin1 (lower k), encode_latin1 v)) <$> items.

(** A header sequence whose names are in lower case. *)
Definition lower_case (raw_headers : list header) : Prop :=
  Forall (λ h, normalize h.1 = h.1) raw_headers.

(** The values a header sequence has under a name, in order. *)
Definition values_of (name : bytes) (raw_headers : list header) : list bytes :=
  snd <$> filter (λ h, h.1 = name) raw_headers.

(** The bodies of the body messages, in order. *)
Definition bodies (ms : list message) : list bytes :=
  omap (λ m, match m with Body data _ => Some data | Start _ _ => None end) ms.

(** The number of code points of a [str] that UTF-8 encodes in two bytes. *)
Fixpoint non_ascii (s : string) : nat :=
  match s with
  | EmptyString => 0
  | String c s' => (if (N_of_ascii c <? 128)%N then 0 else 1) + non_ascii s'
  end.

(** Events of the file handle. *)
Definition is_open (ev : event) : bool :=
  match ev with EvOpen _ => true | _ => false end.

Definition is_close (ev : event) : bool :=
  match ev with EvClose => true | _ => false end.

Definition is_read (ev : event) : bool :=
  match ev with EvRead _ => true | _ => false end.

Definition is_stat (ev : event) : bool :=
  match ev with EvStat _ => true | _ => false end.

(** The sample file system after [hello.txt] was rewritten. *)
Definition hello_txt_later : FileResponse.file :=
  {| FileResponse.file_stat := stat_of 11 86400;
     FileResponse.file_data := b_"hello again" |}.

Definition sample_fs_later : gmap string FileResponse.file :=
  {[ "hello.txt" := hello_txt_later; "big.bin" := big_bin ]}.

(** The outcome of a coroutine on a channel that accepts every message,
    read as an outcome on a channel that may fail. *)
Definition lift_outcome {A} (r : exn + A) : failure + A :=
  match r with
  | inl e => inl (Raised e)
  | inr a => inr a
  end.

(** The coroutine [m] on a channel with a budget, against [t], the same
    coroutine on a channel that accepts every message: [m] delivers the
    first [budget] messages of [t]; with budget for all of them it does what
    [t] does, and the budget left is what it did not use; with less, it ends
    with the exception of [send]. *)
Definition on_budget {A} (m : Failing.co A) (t : io A) : Prop :=
  ∀ budget,
    sent (m budget).1.1 = take budget (sent t.1)
    ∧ ((length (sent t.1) ≤ budget)%nat →
       m budget = (t.1, lift_outcome t.2, budget - length (sent t.1))%nat)
    ∧ ((budget < length (sent t.1))%nat →
       (m budget).1.2 = inl SendFailed ∧ (m budget).2 = 0%nat).

(** ** Text and bytes: basic facts *)

Lemma str_int_decimal (n : N) : int_of_str (str_int n) = Some n.
Proof.
  unfold int_of_str, str_int.
  rewrite NilEmpty.usu. simpl. f_equal. apply Unsigned.of_to.
Qed.

Example lower_header_name : lower "Content-Length" = "content-length".
Proof. reflexivity. Qed.

(** [U+00C9] (E with acute) becomes [U+00E9]; the multiplication sign stays. *)
Example lower_latin1 :
  lower (String (ascii_of_N 201) (String (ascii_of_N 215) EmptyString))
  = String (ascii_of_N 233) (String (ascii_of_N 215) EmptyString).
Proof. reflexivity. Qed.

(** ["h" + U+00E9] is [68 c3 a9] in UTF-8 and [68 e9] in latin-1. *)
Example encode_utf8_two_bytes :
  encode_utf8 (String "h" (String (ascii_of_N 233) EmptyString))
  = ["h"%byte; xc3; xa9]
  ∧ encode_latin1 (String "h" (String (ascii_of_N 233) EmptyString))
    = ["h"%byte; xe9].
Proof. split; reflexivity. Qed.

(** The platform agrees with CPython on these inputs. *)
Example md5_test_vectors :
  MD5.hexdigest [] = "d41d8cd98f00b204e9800998ecf8427e"
  ∧ MD5.hexdigest (b_"The quick brown fox jumps over the lazy dog")
    = "9e107d9d372bb6826bd81d3542a419d6"
  ∧ MD5.hexdigest (replicate 119 "a"%byte) = "8a7bd0732ed6a28ce75f6dabc90e1613".
Proof. repeat split; by vm_compute. Qed.

Example formatdate_test_vectors :
  HTTPDate.format (HTTPDate.seconds_of 0) = "Thu, 01 Jan 1970 00:00:00 GMT"
  ∧ HTTPDate.format (HTTPDate.seconds_of 951782400) = "Tue, 29 Feb 2000 00:00:00 GMT"
  ∧ HTTPDate.format (HTTPDate.seconds_of 1700000000) = "Tue, 14 Nov 2023 22:13:20 GMT"
  ∧ HTTPDate.format (HTTPDate.seconds_of 4102444800) = "Fri, 01 Jan 2100 00:00:00 GMT"
  ∧ HTTPDate.format (HTTPDate.seconds_of 253402300799) = "Fri, 31 Dec 9999 23:59:59 GMT".
Proof. repeat split; by vm_compute. Qed.

Example guess_type_test_vectors :
  guess_by_extension "hello.txt" = Some "text/plain"
  ∧ guess_by_extension "big.bin" = Some "application/octet-stream"
  ∧ guess_by_extension "static/INDEX.HTM" = Some "text/html"
  ∧ guess_by_extension "notes.txt.gz" = Some "text/plain"
  ∧ guess_by_extension "backup.tgz" = Some "application/x-tar"
  ∧ guess_by_extension "dir.d/README" = None
  ∧ guess_by_extension ".txt" = None
  ∧ guess_by_extension "x.y:.txt" = None
  ∧ guess_by_extension "data:image/png;base64,abc" = Some "image/png".
Proof. repeat split; by vm_compute. Qed.

#[global] Instance encode_latin1_inj : Inj (=) (=) encode_latin1.
Proof.
  intros s1 s2 Heq.
  rewrite <- (string_of_list_byte_of_string s1), <- (string_of_list_byte_of_string s2).
  unfold encode_latin1 in Heq. by rewrite Heq.
Qed.

Lemma lower_char_idemp (c : ascii) : lower_char (lower_char c) = lower_char c.
Proof. destruct c as [[] [] [] [] [] [] [] []]; reflexivity. Qed.

Lemma lower_idemp (s : string) : lower (lower s) = lower s.
Proof.
  induction s as [|c s IH]; simpl; [done|].
  by rewrite lower_char_idemp, IH.
Qed.

Lemma normalize_lower (k : string) :
  normalize (encode_latin1 (lower k)) = encode_latin1 (lower k).
Proof.
  unfold normalize, encode_latin1.
  by rewrite string_of_list_byte_of_string, lower_idemp.
Qed.

(** The header names [init_headers] derives from the caller's items. *)
Lemma supplied_keys (items : dict) :
  fst <$> ((fun '(k, v) => (encode_latin1 (lower k), encode_latin1 v)) <$> items)
  = encode_latin1 <$> supplied (Some items).
Proof.
  simpl. rewrite <- !list_fmap_compose.
  apply list_fmap_ext. by intros _ [k v] _.
Qed.

Lemma supplied_key_elem (name : string) (items : dict) :
  encode_latin1 name
    ∈ fst <$> ((fun '(k, v) => (encode_latin1 (lower k), encode_latin1 v)) <$> items)
  ↔ name ∈ supplied (Some items).
Proof. rewrite supplied_keys. apply list_elem_of_fmap_inj, _. Qed.

(** ** Response: header synthesis *)

(** With a mapping supplied, [init_headers] appends the computed length
    exactly when the mapping has a [content-length] of its own. *)
Lemma init_headers_length_flag (body : bytes) (items : dict) :
  Response.init_headers (Some body) None (Some items)
  = let raw := (fun '(k, v) => (encode_latin1 (lower k), encode_latin1 v)) <$> items in
    if bool_decide ("content-length" ∈ supplied (Some items))
    then raw ++ [(b_"content-length", encode_latin1 (str_int (N.of_nat (length body))))]
    else raw.
Proof.
  unfold Response.init_headers. cbv zeta.
  by rewrite (bool_decide_ext _ _ (supplied_key_elem "content-length" items)).
Qed.

(** A mapping without [content-length] gets none: [Response(b"ok",
    headers={"X-Id": "1"})]. *)
Example supplied_headers_without_length :
  Response.init_headers (Some b_"ok") None (Some [("X-Id", "1")]) = [(b_"x-id", b_"1")].
Proof. reflexivity. Qed.

(** C1 (the code departs from the claim).  [Response(b"ok",
    headers={"Content-Length": "999"})]: the supplied [999] is kept, and the
    computed length [2] is appended after it all the same; the auto-populated
    header is not suppressed. *)
Theorem supplied_content_length_repopulated :
  Response.init Response.Response (Bytes b_"ok") 200
    (Some [("Content-Length", "999")]) None
  = inr {| Response.body := b_"ok";
           Response.status_code := 200;
           Response.media_type := None;
           Response.raw_headers :=
             [(b_"content-length", b_"999"); (b_"content-length", b_"2")] |}.
Proof. vm_compute. reflexivity. Qed.

(** C3, as stated, fails: [Response(b"ok", headers={"X-Id": "1", "x-id":
    "2"})] has two entries named [x-id]. *)
Lemma init_headers_duplicate_names :
  ∃ r, Response.init Response.Response (Bytes b_"ok") 200
         (Some [("X-Id", "1"); ("x-id", "2")]) None = inr r
       ∧ ¬ NoDup (names (Response.raw_headers r)).
Proof.
  eexists. split; [reflexivity|].
  intros Hnodup. vm_compute in Hnodup.
  apply NoDup_cons in Hnodup as [Hnotin _].
  apply Hnotin. apply list_elem_of_here.
Qed.

(** C3 (amended).  When the names the caller supplies are pairwise distinct
    once in lower case, and neither [content-length] nor [content-type] is
    among them (in particular when [headers] is [None]), no two entries of
    the synthesized sequence have the same name, case apart; for any body
    and any media type. *)
Theorem init_headers_names_unique (body : option bytes) (media_type : option string)
    (headers : option dict) :
  NoDup (supplied headers) →
  "content-length" ∉ supplied headers →
  "content-type" ∉ supplied headers →
  NoDup (names (Response.init_headers body media_type headers)).
Proof.
  intros Hdistinct Hlength Htype.
  destruct headers as [items|].
  - unfold Response.init_headers. cbv zeta.
    rewrite (bool_decide_ext _ _ (supplied_key_elem "content-length" items)).
    rewrite (bool_decide_ext _ _ (supplied_key_elem "content-type" items)).
    rewrite !bool_decide_eq_false_2 by done.
    assert (Hraw :
      names ((fun '(k, v) => (encode_latin1 (lower k), encode_latin1 v)) <$> items)
      = encode_latin1 <$> supplied (Some items)).
    { unfold names. simpl. rewrite <- !list_fmap_compose.
      apply list_fmap_ext. intros _ [k v] _. simpl. apply normalize_lower. }
    destruct body, media_type; rewrite Hraw; by apply (NoDup_fmap_2 _).
  - destruct body as [data|], media_type as [m|]; simpl.
    + apply NoDup_cons. split; [|apply NoDup_singleton].
      rewrite list_elem_of_singleton. discriminate.
    + apply NoDup_singleton.
    + apply NoDup_singleton.
    + apply NoDup_nil_2.
Qed.

(** C3, witness: a mapping with two distinct names, neither of them
    auto-populated. *)
Lemma init_headers_names_unique_witness :
  NoDup (names (Response.init_headers (Some b_"ok") (Some "text/html")
                  (Some [("X-Id", "1"); ("Accept", "*/*")]))).
Proof.
  apply init_headers_names_unique; simpl.
  - apply NoDup_cons. split; [|apply NoDup_singleton].
    rewrite list_elem_of_singleton. discriminate.
  - rewrite !elem_of_cons, elem_of_nil. intros [?|[?|[]]]; discriminate.
  - rewrite !elem_of_cons, elem_of_nil. intros [?|[?|[]]]; discriminate.
Defined.

(** C5.  [Response(c)] for [bytes] [c], with [headers=None]: the construction
    succeeds, the body is [c], and the header sequence is the
    [content-length] header with the decimal digits of [len(c)], followed,
    when a media type is set (by the caller or by the class), by the
    [content-type] header; its value is the media type with
    ["; charset=utf-8"] appended when the media type starts with ["text/"],
    and the media type alone when it does not. *)
Theorem init_bytes_default_headers (c : Response.cls) (data : bytes) (status : Z)
    (media_type : option string) :
  ∃ r, Response.init c (Bytes data) status None media_type = inr r
    ∧ Response.body r = data
    ∧ Response.media_type r
      = match media_type with Some m => Some m | None => Response.cls_media_type c end
    ∧ (b_"content-length", encode_latin1 (str_int (N.of_nat (length data))))
        ∈ Response.raw_headers r
    ∧ int_of_str (str_int (N.of_nat (length data))) = Some (N.of_nat (length data))
    ∧ (∀ m, Response.media_type r = Some m →
         (startswith m "text/" = true →
            (b_"content-type", encode_latin1 (m +:+ "; charset=" +:+ "utf-8"))
              ∈ Response.raw_headers r)
         ∧ (startswith m "text/" = false →
            (b_"content-type", encode_latin1 m) ∈ Response.raw_headers r))
    ∧ Response.raw_headers r
      = (b_"content-length", encode_latin1 (str_int (N.of_nat (length data))))
          :: match Response.media_type r with
             | Some m => [(b_"content-type", encode_latin1 (content_type_of m))]
             | None => []
             end.
Proof.
  eexists. split; [reflexivity|]. cbn [Response.body Response.media_type Response.raw_headers].
  split; [done|]. split; [done|]. split.
  { unfold Response.init_headers. cbv zeta iota beta.
    destruct media_type as [m|]; [|destruct (Response.cls_media_type c)];
      rewrite ?elem_of_app, ?elem_of_cons; auto. }
  split; [apply str_int_decimal|]. split.
  - intros m Hm. rewrite Hm. unfold Response.init_headers. cbv zeta iota beta.
    split; intros ->; rewrite elem_of_app, list_elem_of_singleton; by right.
  - unfold Response.init_headers. cbv zeta iota beta.
    by destruct media_type as [m|]; [|destruct (Response.cls_media_type c)].
Qed.

(** ** Response: rendering and transmission *)

(** C9.  [render] returns [bytes] unchanged and returns the UTF-8 encoding
    of a [str] ([charset] is ["utf-8"]); on a value that is neither, which
    has no [encode], it raises (Python's [AttributeError], the failure the
    specification files under EncodingError); and an exception of [render]
    is the outcome of the constructor, which calls [render] first. *)
Theorem render_cases :
  (∀ data, Response.render (Bytes data) = inr data)
  ∧ (∀ s, Response.render (Str s) = inr (encode_utf8 s))
  ∧ (∀ content, is_bytes_or_str content = false → Response.render content = inl AttributeError)
  ∧ (∀ c content status headers media_type e,
       Response.render content = inl e →
       Response.init c content status headers media_type = inl e).
Proof.
  repeat split; try done.
  - by intros [].
  - intros c content status headers media_type e He.
    unfold Response.init. by rewrite He.
Qed.

(** C8.  [Response.__call__] awaits two sends and nothing else: the start
    message with the status code and the header sequence, then one body
    message with the whole body.  The body message has no [more_body] key,
    which an ASGI server reads as [False]: it is the only body message, it
    ends the response, and it is the last message.  For a response that
    [__init__] built, the status code is the one given, the header sequence
    is the one [init_headers] synthesized, and the body is the rendered
    content. *)
Theorem response_call_messages (self : Response.t) :
  Response.call self
  = ([EvSend (Start (Response.status_code self) (Response.raw_headers self));
      EvSend (Body (Response.body self) None)],
     inr tt)
  ∧ filter (λ m, is_body m) (sent (Response.call self).1)
    = [Body (Response.body self) None]
  ∧ filter (λ m, terminal m) (sent (Response.call self).1)
    = [Body (Response.body self) None]
  ∧ last (sent (Response.call self).1) = Some (Body (Response.body self) None)
  ∧ more (Body (Response.body self) None) = false
  ∧ (∀ c content status headers media_type,
       Response.init c content status headers media_type = inr self →
       Response.status_code self = status
       ∧ Response.render content = inr (Response.body self)
       ∧ Response.raw_headers self
         = Response.init_headers (Some (Response.body self)) (Response.media_type self)
             headers).
Proof.
  do 5 (split; [done|]).
  intros c content status headers media_type Hinit.
  unfold Response.init in Hinit.
  destruct (Response.render content) as [e|body]; [done|].
  by injection Hinit as <-.
Qed.

(** ** StreamingResponse: transmission *)

Lemma stream_chunks (chunks : list value) :
  Forall (λ chunk, is_bytes_or_str chunk = true) chunks →
  StreamingResponse.stream chunks
  = (EvSend <$> ((λ chunk, Body (chunk_bytes chunk) (Some true)) <$> chunks), inr tt).
Proof.
  induction 1 as [|chunk chunks Hchunk _ IH]; [done|].
  cbn [StreamingResponse.stream]. rewrite IH.
  by destruct chunk.
Qed.

(** A chunk that is neither [bytes] nor [str] ends the transmission with
    [AttributeError], after the chunks before it were sent. *)
Lemma stream_bad_chunk (before after : list value) (chunk : value) :
  Forall (λ chunk, is_bytes_or_str chunk = true) before →
  is_bytes_or_str chunk = false →
  StreamingResponse.stream (before ++ chunk :: after)
  = (EvSend <$> ((λ chunk, Body (chunk_bytes chunk) (Some true)) <$> before),
     inl AttributeError).
Proof.
  intros Hbefore Hchunk.
  induction Hbefore as [|c before Hc _ IH].
  - by destruct chunk.
  - cbn [app StreamingResponse.stream]. rewrite IH. by destruct c.
Qed.

Lemma sent_send (ms : list message) : sent (EvSend <$> ms) = ms.
Proof.
  induction ms as [|m ms IH]; [done|].
  unfold sent in *. cbn [fmap list_fmap omap list_omap]. by rewrite IH.
Qed.

Lemma filter_terminal_more (chunks : list value) :
  filter (λ m, terminal m) ((λ chunk, Body (chunk_bytes chunk) (Some true)) <$> chunks) = [].
Proof.
  induction chunks as [|chunk chunks IH]; [done|].
  cbn [fmap list_fmap]. rewrite filter_cons_False; [done|]. cbn. tauto.
Qed.

(** C4, as stated, fails.  [StreamingResponse(["a", "b"])], the content a
    plain list: [async for] raises [TypeError] after the start message was
    sent; no body message is sent, and none with [more_body=False]. *)
Lemma streaming_call_list_raises :
  let self := StreamingResponse.init (Iterable [Str "a"; Str "b"]) 200 None None in
  StreamingResponse.call self = ([EvSend (Start 200 [])], inl TypeError)
  ∧ length (sent (StreamingResponse.call self).1) = 1
  ∧ filter (λ m, terminal m) (sent (StreamingResponse.call self).1) = [].
Proof. done. Qed.

(** C4 (amended).  [StreamingResponse.__call__] over an asynchronous
    iterable that produces a finite sequence of chunks, each [bytes] or
    [str]: the sends are, in order, the start message with the status code
    and the header sequence; for each chunk, one body message with the chunk
    ([str] chunks encoded as UTF-8) and [more_body=True]; one last body
    message with an empty body and [more_body=False].  These are
    [len(chunks) + 2] messages, of which the last is the only one that ends
    the response. *)
Theorem streaming_call_messages (self : StreamingResponse.t) (chunks : list value) :
  StreamingResponse.body_iterator self = AsyncIterable chunks →
  Forall (λ chunk, is_bytes_or_str chunk = true) chunks →
  StreamingResponse.call self
  = (EvSend <$>
       (Start (StreamingResponse.status_code self) (StreamingResponse.raw_headers self)
          :: ((λ chunk, Body (chunk_bytes chunk) (Some true)) <$> chunks)
          ++ [Body [] (Some false)]),
     inr tt)
  ∧ length (sent (StreamingResponse.call self).1) = length chunks + 2
  ∧ filter (λ m, terminal m) (sent (StreamingResponse.call self).1)
    = [Body [] (Some false)]
  ∧ last (sent (StreamingResponse.call self).1) = Some (Body [] (Some false)).
Proof.
  intros Hcontent Hchunks.
  assert (Hcall : StreamingResponse.call self
    = (EvSend <$>
         (Start (StreamingResponse.status_code self) (StreamingResponse.raw_headers self)
            :: ((λ chunk, Body (chunk_bytes chunk) (Some true)) <$> chunks)
            ++ [Body [] (Some false)]),
       inr tt)).
  { unfold StreamingResponse.call. rewrite Hcontent.
    cbn [StreamingResponse.async_for]. rewrite (stream_chunks _ Hchunks).
    cbn. by rewrite fmap_app. }
  split; [exact Hcall|]. rewrite Hcall. cbn [fst]. rewrite sent_send.
  split; [|split].
  - cbn [length]. rewrite length_app, length_fmap. cbn. lia.
  - rewrite filter_cons_False by (cbn; tauto).
    by rewrite filter_app, filter_terminal_more.
  - by rewrite last_cons, last_snoc.
Qed.

(** C4, witness: an asynchronous iterable that produces ["a"] and ["b"];
    four messages, one of them with [more_body=False]. *)
Lemma streaming_call_messages_witness :
  let self :=
    StreamingResponse.init (AsyncIterable [Str "a"; Str "b"]) 200 None None in
  StreamingResponse.call self
  = ([EvSend (Start 200 []);
      EvSend (Body b_"a" (Some true));
      EvSend (Body b_"b" (Some true));
      EvSend (Body [] (Some false))],
     inr tt)
  ∧ length (sent (StreamingResponse.call self).1) = 4
  ∧ filter (λ m, terminal m) (sent (StreamingResponse.call self).1)
    = [Body [] (Some false)]
  ∧ last (sent (StreamingResponse.call self).1) = Some (Body [] (Some false)).
Proof.
  apply (streaming_call_messages
           (StreamingResponse.init (AsyncIterable [Str "a"; Str "b"]) 200 None None)
           [Str "a"; Str "b"]).
  - reflexivity.
  - repeat constructor.
Defined.

(** ** MutableHeaders.setdefault and the names of a header sequence *)

Lemma setdefault_mono (key value : string) (raw : list header) (h : header) :
  h ∈ raw → h ∈ MutableHeaders.setdefault key value raw.
Proof.
  intros Hh. unfold MutableHeaders.setdefault. cbv zeta.
  case_bool_decide; [done|]. apply elem_of_app. by left.
Qed.

Lemma setdefault_fresh (key value : string) (raw : list header) :
  lower key = key →
  encode_latin1 key ∉ fst <$> raw →
  (encode_latin1 key, encode_latin1 value) ∈ MutableHeaders.setdefault key value raw.
Proof.
  intros Hkey Hfresh. unfold MutableHeaders.setdefault. cbv zeta. rewrite Hkey.
  rewrite bool_decide_eq_false_2 by done.
  apply elem_of_app. right. apply list_elem_of_singleton. done.
Qed.

Lemma setdefault_present (key value : string) (raw : list header) :
  encode_latin1 (lower key) ∈ fst <$> raw →
  MutableHeaders.setdefault key value raw = raw.
Proof.
  intros Hin. unfold MutableHeaders.setdefault. cbv zeta.
  by rewrite bool_decide_eq_true_2.
Qed.

Lemma setdefault_keys (key value : string) (raw : list header) (name : bytes) :
  name ∈ fst <$> MutableHeaders.setdefault key value raw →
  name ∈ fst <$> raw ∨ name = encode_latin1 (lower key).
Proof.
  unfold MutableHeaders.setdefault. cbv zeta.
  case_bool_decide; [by left|].
  rewrite fmap_app, elem_of_app. intros [Hin|Hin]; [by left|right].
  by apply list_elem_of_singleton in Hin.
Qed.

Lemma setdefault_keys_mono (key value : string) (raw : list header) (name : bytes) :
  name ∈ fst <$> raw → name ∈ fst <$> MutableHeaders.setdefault key value raw.
Proof.
  intros [h [-> Hh]]%list_elem_of_fmap.
  apply list_elem_of_fmap_2. by apply setdefault_mono.
Qed.

(** An entry under a name the sequence has already is an entry of the
    sequence: [setdefault] adds no second entry of that name. *)
Lemma setdefault_keeps (key value : string) (raw : list header) (name v : bytes) :
  name ∈ fst <$> raw →
  (name, v) ∈ MutableHeaders.setdefault key value raw →
  (name, v) ∈ raw.
Proof.
  intros Hname. unfold MutableHeaders.setdefault. cbv zeta.
  case_bool_decide as Hkey; [done|].
  rewrite elem_of_app, list_elem_of_singleton.
  intros [Hin|Heq]; [done|]. injection Heq as -> ->. done.
Qed.

(** Without a body, the names [init_headers] produces are the caller's and
    [content-type]. *)
Lemma init_headers_keys (media_type : option string) (headers : option dict)
    (name : string) :
  encode_latin1 name ∈ fst <$> Response.init_headers None media_type headers →
  name ∈ supplied headers ∨ name = "content-type".
Proof.
  unfold Response.init_headers. destruct headers as [items|]; cbv zeta iota beta.
  - destruct media_type as [m|]; [case_bool_decide|];
      rewrite ?fmap_app, ?elem_of_app, supplied_key_elem; [|tauto..].
    intros [?|Hin]; [by left|right].
    apply list_elem_of_singleton in Hin. by apply (inj encode_latin1).
  - destruct media_type as [m|]; cbn; [|by intros ?%elem_of_nil].
    intros Hin%list_elem_of_singleton. right. by apply (inj encode_latin1).
Qed.

(** The caller's entries are all in the synthesized sequence. *)
Lemma init_headers_keeps_supplied (body : option bytes) (media_type : option string)
    (items : dict) (k v : string) :
  (k, v) ∈ items →
  (encode_latin1 (lower k), encode_latin1 v)
    ∈ Response.init_headers body media_type (Some items).
Proof.
  intros Hin. unfold Response.init_headers. cbv zeta iota beta.
  assert ((encode_latin1 (lower k), encode_latin1 v)
            ∈ (fun '(k, v) => (encode_latin1 (lower k), encode_latin1 v)) <$> items)
    as Hraw by (apply list_elem_of_fmap; by exists (k, v)).
  destruct body, media_type; repeat case_bool_decide;
    rewrite ?elem_of_app; tauto.
Qed.

(** ** FileResponse *)

Section FileResponseProperties.
Context `{Platform}.

Implicit Types (self : FileResponse.t) (st : FileResponse.stat_result).
Implicit Types (fs : gmap string FileResponse.file).

Lemma set_stat_headers_mono st self (h : header) :
  h ∈ FileResponse.raw_headers self →
  h ∈ FileResponse.raw_headers (FileResponse.set_stat_headers st self).
Proof.
  intros Hh. unfold FileResponse.set_stat_headers.
  cbn [FileResponse.raw_headers FileResponse.with_raw_headers].
  by do 3 apply setdefault_mono.
Qed.

Lemma set_stat_headers_sets st self (key value : string) :
  (key, value) ∈ cache_headers st →
  encode_latin1 key ∉ fst <$> FileResponse.raw_headers self →
  (encode_latin1 key, encode_latin1 value)
    ∈ FileResponse.raw_headers (FileResponse.set_stat_headers st self).
Proof.
  unfold cache_headers. rewrite !elem_of_cons, elem_of_nil.
  intros [Heq|[Heq|[Heq|[]]]] Hfresh; injection Heq as -> ->;
    unfold FileResponse.set_stat_headers;
    cbn [FileResponse.raw_headers FileResponse.with_raw_headers].
  - do 2 apply setdefault_mono. by apply setdefault_fresh.
  - apply setdefault_mono. apply setdefault_fresh; [done|].
    intros [Hin|Heq]%setdefault_keys; [done|discriminate].
  - apply setdefault_fresh; [done|].
    intros [[Hin|Heq]%setdefault_keys|Heq]%setdefault_keys; [done|discriminate..].
Qed.

(** A cache header the sequence has already is left as it is. *)
Lemma set_stat_headers_keeps st self (name : bytes) (v : bytes) :
  name ∈ fst <$> FileResponse.raw_headers self →
  (name, v) ∈ FileResponse.raw_headers (FileResponse.set_stat_headers st self) →
  (name, v) ∈ FileResponse.raw_headers self.
Proof.
  intros Hname. unfold FileResponse.set_stat_headers.
  cbn [FileResponse.raw_headers FileResponse.with_raw_headers].
  intros Hin.
  do 3 (apply setdefault_keeps in Hin; [|by repeat apply setdefault_keys_mono]).
  done.
Qed.

(** The object [__init__] builds before it looks at [stat_result]. *)
Lemma init_stat_raw_headers path headers media_type filename st :
  FileResponse.raw_headers (FileResponse.init path headers media_type filename (Some st))
  = FileResponse.raw_headers
      (FileResponse.set_stat_headers st
         (FileResponse.init path headers media_type filename None)).
Proof. done. Qed.

(** The names at construction, when no [stat_result] is given. *)
Lemma file_init_keys path headers media_type filename (name : string) :
  encode_latin1 name
    ∈ fst <$> FileResponse.raw_headers
                (FileResponse.init path headers media_type filename None) →
  name ∈ supplied headers ∨ name = "content-type" ∨ name = "content-disposition".
Proof.
  unfold FileResponse.init. cbn [FileResponse.raw_headers]. destruct filename as [f|].
  - intros [Hin|Heq]%setdefault_keys.
    + apply init_headers_keys in Hin. tauto.
    + right. right. by apply (inj encode_latin1).
  - intros Hin%init_headers_keys. tauto.
Qed.

(** *** Transmission *)

Lemma sent_app (log1 log2 : list event) : sent (log1 ++ log2) = sent log1 ++ sent log2.
Proof. apply omap_app. Qed.

(** The read loop sends body messages only, each with [more_body=False]. *)
Lemma read_loop_sent (rest : bytes) :
  Forall (λ m, is_body m = true ∧ more m = false) (sent (FileResponse.read_loop rest)).
Proof.
  funelim (FileResponse.read_loop rest).
  - apply Forall_cons. split; [done|]. apply H0.
  - apply Forall_cons. split; [done|]. apply Forall_nil_2.
Qed.

(** One body message per read: as many as there are whole chunks, and one. *)
Lemma read_loop_count (rest : bytes) :
  length (sent (FileResponse.read_loop rest))
  = S (length rest / FileResponse.chunk_size).
Proof.
  funelim (FileResponse.read_loop rest).
  - cbn [sent omap list_omap length]. fold (sent (FileResponse.read_loop (drop FileResponse.chunk_size rest))).
    rewrite H0. f_equal. rewrite length_drop.
    pose proof (proj1 (Nat.eqb_eq _ _) e) as Hfull. rewrite length_take in Hfull.
    assert (FileResponse.chunk_size ≤ length rest)%nat by lia.
    replace (length rest) with
      (1 * FileResponse.chunk_size + (length rest - FileResponse.chunk_size)) at 2 by lia.
    by rewrite Nat.div_add_l.
  - cbn [sent omap list_omap length].
    pose proof (proj1 (Nat.eqb_neq _ _) e) as Hshort. rewrite length_take in Hshort.
    rewrite Nat.div_small; [done|]. lia.
Qed.

Lemma set_stat_headers_path st self :
  FileResponse.path (FileResponse.set_stat_headers st self) = FileResponse.path self.
Proof. done. Qed.

Lemma set_stat_headers_status st self :
  FileResponse.status_code (FileResponse.set_stat_headers st self)
  = FileResponse.status_code self.
Proof. done. Qed.

Lemma call_log fs self :
  (FileResponse.call fs self).1
  = match FileResponse.stat self, fs !! FileResponse.path self with
    | None, None => [EvStat (FileResponse.path self)]
    | None, Some f =>
        EvStat (FileResponse.path self)
          :: EvSend (Start (FileResponse.status_code self)
                       (FileResponse.raw_headers
                          (FileResponse.set_stat_headers (FileResponse.file_stat f) self)))
          :: EvOpen (FileResponse.path self)
          :: FileResponse.read_loop (FileResponse.file_data f) ++ [EvClose]
    | Some _, None =>
        [EvSend (Start (FileResponse.status_code self) (FileResponse.raw_headers self))]
    | Some _, Some f =>
        EvSend (Start (FileResponse.status_code self) (FileResponse.raw_headers self))
          :: EvOpen (FileResponse.path self)
          :: FileResponse.read_loop (FileResponse.file_data f) ++ [EvClose]
    end.
Proof.
  unfold FileResponse.call, FileResponse.aio_stat, FileResponse.aio_open,
    FileResponse.closing, bind, send, ret.
  destruct (FileResponse.stat self) as [st|];
    destruct (fs !! FileResponse.path self) as [f|] eqn:Hfs;
    rewrite ?set_stat_headers_path, ?set_stat_headers_status, ?Hfs;
    cbn [fst app]; by rewrite ?app_nil_r.
Qed.

(** The messages [__call__] sends. *)
Lemma call_sent fs self :
  sent (FileResponse.call fs self).1
  = match FileResponse.stat self, fs !! FileResponse.path self with
    | None, None => []
    | None, Some f =>
        Start (FileResponse.status_code self)
          (FileResponse.raw_headers
             (FileResponse.set_stat_headers (FileResponse.file_stat f) self))
          :: sent (FileResponse.read_loop (FileResponse.file_data f))
    | Some _, None =>
        [Start (FileResponse.status_code self) (FileResponse.raw_headers self)]
    | Some _, Some f =>
        Start (FileResponse.status_code self) (FileResponse.raw_headers self)
          :: sent (FileResponse.read_loop (FileResponse.file_data f))
    end.
Proof.
  rewrite call_log.
  destruct (FileResponse.stat self), (fs !! FileResponse.path self) as [f|];
    try done; unfold sent; cbn [omap list_omap];
    by rewrite omap_app, app_nil_r.
Qed.

(** *** Headers at construction *)

(** C6 (amended).  [FileResponse(path, headers, media_type, filename,
    stat_result)] with a filename and a [stat_result]: after construction
    the header sequence has, for each of the four names below that the
    caller's [headers] do not have (case apart; all four when [headers] is
    [None]): [content-disposition] with [attachment; filename="<filename>"],
    [content-length] with the decimal digits of [st_size], [last-modified]
    with [formatdate(st_mtime, usegmt=True)], and [etag] with the MD5 hex
    digest of [str(st_mtime) + "-" + str(st_size)].  Every header of the
    caller is in the sequence. *)
Theorem file_init_stat_headers path headers media_type (filename : string) st :
  let self := FileResponse.init path headers media_type (Some filename) (Some st) in
  let hs := FileResponse.raw_headers self in
  ("content-disposition" ∉ supplied headers →
     (b_"content-disposition",
      encode_latin1 ("attachment; filename=" +:+ dquote +:+ filename +:+ dquote)) ∈ hs)
  ∧ ("content-length" ∉ supplied headers →
       (b_"content-length", encode_latin1 (str_int (st_size st))) ∈ hs
       ∧ int_of_str (str_int (st_size st)) = Some (st_size st))
  ∧ ("last-modified" ∉ supplied headers →
       (b_"last-modified", encode_latin1 (formatdate (st_mtime st))) ∈ hs)
  ∧ ("etag" ∉ supplied headers →
       (b_"etag",
        encode_latin1
          (md5_hexdigest
             (encode_utf8 (str_float (st_mtime st) +:+ "-" +:+ str_int (st_size st)))))
         ∈ hs)
  ∧ (∀ items k v, headers = Some items → (k, v) ∈ items →
       (encode_latin1 (lower k), encode_latin1 v) ∈ hs).
Proof.
  cbv zeta. rewrite init_stat_raw_headers.
  assert (Hcache : ∀ key value,
    (key, value) ∈ cache_headers st → key ∉ supplied headers →
    key ≠ "content-type" → key ≠ "content-disposition" →
    (encode_latin1 key, encode_latin1 value)
      ∈ FileResponse.raw_headers
          (FileResponse.set_stat_headers st
             (FileResponse.init path headers media_type (Some filename) None))).
  { intros key value Hin Hkey Hct Hcd. apply set_stat_headers_sets; [done|].
    intros [?|[?|?]]%file_init_keys; done. }
  split; [|split; [|split; [|split]]].
  - intros Hkey. apply set_stat_headers_mono.
    unfold FileResponse.init. cbn [FileResponse.raw_headers].
    apply setdefault_fresh; [done|].
    intros [?|?]%init_headers_keys; done.
  - intros Hkey. split; [|apply str_int_decimal].
    apply (Hcache "content-length"); [|done..].
    unfold cache_headers. rewrite !elem_of_cons. tauto.
  - intros Hkey. apply (Hcache "last-modified"); [|done..].
    unfold cache_headers. rewrite !elem_of_cons. tauto.
  - intros Hkey. apply (Hcache "etag"); [|done..].
    unfold cache_headers. rewrite !elem_of_cons. tauto.
  - intros items k v -> Hin. apply set_stat_headers_mono.
    unfold FileResponse.init. cbn [FileResponse.raw_headers].
    apply setdefault_mono. by apply init_headers_keeps_supplied.
Qed.

(** *** Transmission: status and the deferred stat *)

(** C10.  [FileResponse.__init__] takes no status code and sets
    [status_code] to 200, whatever its arguments; every start message
    [__call__] sends carries 200; and [__call__] does send one, first of
    its messages, when the file exists or a [stat_result] was given. *)
Theorem file_response_status_200 path headers media_type filename
    (stat_result : option FileResponse.stat_result) fs :
  let self := FileResponse.init path headers media_type filename stat_result in
  FileResponse.status_code self = 200%Z
  ∧ (∀ status hs,
       Start status hs ∈ sent (FileResponse.call fs self).1 → status = 200%Z)
  ∧ (is_Some (fs !! path) ∨ is_Some stat_result →
       ∃ hs, head (sent (FileResponse.call fs self).1) = Some (Start 200 hs)).
Proof.
  cbv zeta.
  assert (Hstatus : FileResponse.status_code
            (FileResponse.init path headers media_type filename stat_result) = 200%Z)
    by by destruct stat_result.
  assert (Hpath : FileResponse.path
            (FileResponse.init path headers media_type filename stat_result) = path)
    by by destruct stat_result.
  assert (Hstat : FileResponse.stat
            (FileResponse.init path headers media_type filename stat_result) = stat_result)
    by by destruct stat_result.
  split; [done|]. rewrite call_sent, Hstatus, Hpath, Hstat. split.
  - intros status hs Hin.
    assert (Hloop : ∀ rest, Start status hs ∉ sent (FileResponse.read_loop rest)).
    { intros rest Hrest.
      pose proof (read_loop_sent rest) as Hbody. rewrite Forall_forall in Hbody.
      by destruct (Hbody _ Hrest). }
    destruct stat_result as [st|], (fs !! path) as [f|];
      try (by apply elem_of_nil in Hin);
      apply elem_of_cons in Hin as [Hin|Hin];
      try (by injection Hin); try (by apply elem_of_nil in Hin);
      by apply Hloop in Hin.
  - intros [[f Hf]|[st ->]].
    + rewrite Hf. destruct stat_result; cbn; eauto.
    + destruct (fs !! path); cbn; eauto.
Qed.

(** C7.  [FileResponse] constructed without a [stat_result], for a file
    that exists: [__call__] awaits [stat] first and sends the start message
    next, with the headers [set_stat_headers] leaves for the [stat] just
    obtained; the messages after it are body messages.  Each cache header
    ([content-length], [last-modified], [etag]) that was absent at
    construction is carried by the start message with the value computed
    from that [stat]; and it was absent at construction when the caller
    supplied no header of that name. *)
Theorem file_call_defers_stat path headers media_type filename fs
    (f : FileResponse.file) :
  fs !! path = Some f →
  let self := FileResponse.init path headers media_type filename None in
  let start_headers :=
    FileResponse.raw_headers
      (FileResponse.set_stat_headers (FileResponse.file_stat f) self) in
  (∃ rest,
     (FileResponse.call fs self).1
     = (EvStat path :: EvSend (Start 200 start_headers) :: rest)
     ∧ Forall (λ m, is_body m = true) (sent rest))
  ∧ (∀ key value,
       (key, value) ∈ cache_headers (FileResponse.file_stat f) →
       (encode_latin1 key ∉ fst <$> FileResponse.raw_headers self →
          (encode_latin1 key, encode_latin1 value) ∈ start_headers)
       ∧ (key ∉ supplied headers →
            encode_latin1 key ∉ fst <$> FileResponse.raw_headers self)).
Proof.
  intros Hf. cbv zeta. split.
  - rewrite call_log. cbn [FileResponse.init FileResponse.stat FileResponse.path].
    rewrite Hf. eexists. split; [reflexivity|].
    cbn [sent omap list_omap].
    fold (sent (FileResponse.read_loop (FileResponse.file_data f) ++ [EvClose])).
    rewrite sent_app. cbn [sent omap list_omap]. rewrite app_nil_r.
    eapply Forall_impl; [apply read_loop_sent|]. by intros m [? _].
  - intros key value Hin. split.
    + intros Hfresh. by apply set_stat_headers_sets.
    + intros Hkey [Hs|[-> | ->]]%file_init_keys; [done|..];
        unfold cache_headers in Hin; rewrite !elem_of_cons, elem_of_nil in Hin;
        destruct Hin as [?|[?|[?|[]]]]; discriminate.
Qed.

(** Without the file, the [stat] is all that [__call__] awaits. *)
Lemma file_call_missing path headers media_type filename fs :
  fs !! path = None →
  FileResponse.call fs (FileResponse.init path headers media_type filename None)
  = ([EvStat path], inl FileNotFoundError).
Proof.
  intros Hf. unfold FileResponse.call, FileResponse.aio_stat, bind.
  cbn [FileResponse.init FileResponse.stat FileResponse.path]. by rewrite Hf.
Qed.

End FileResponseProperties.

(** ** FileResponse on a concrete file system *)

(** C6, as stated, fails.  [FileResponse("x.txt", headers={"ETag": "abc"},
    filename="x.txt", stat_result=(size 10, mtime 1000.0))]: the one [etag]
    header of the sequence is the caller's [abc]; the digest of
    ["1000.0-10"] is not in it. *)
Lemma file_init_supplied_etag_kept :
  let self :=
    FileResponse.init "x.txt" (Some [("ETag", "abc")]) None (Some "x.txt")
      (Some (stat_of 10 1000)) in
  filter (λ h, h.1 = b_"etag") (FileResponse.raw_headers self) = [(b_"etag", b_"abc")]
  ∧ md5_hexdigest (encode_utf8 (str_float (HTTPDate.seconds_of 1000) +:+ "-" +:+ str_int 10))
    = "e80786ba5d5115a725663846526304be"
  ∧ (b_"etag",
     encode_latin1
       (md5_hexdigest (encode_utf8 (str_float (HTTPDate.seconds_of 1000) +:+ "-" +:+ str_int 10))))
      ∉ FileResponse.raw_headers self.
Proof.
  cbv zeta. split; [by vm_compute|]. split; [by vm_compute|].
  apply (bool_decide_unpack _). by vm_compute.
Qed.

(** C6, witness: [FileResponse("x.txt", filename="x.txt", stat_result=(size
    10, mtime 1000.0))], no headers supplied. *)
Lemma file_init_stat_headers_witness :
  let self :=
    FileResponse.init "x.txt" None None (Some "x.txt")
      (Some (stat_of 10 1000)) in
  let hs := FileResponse.raw_headers self in
  (b_"content-disposition",
   encode_latin1 ("attachment; filename=" +:+ dquote +:+ "x.txt" +:+ dquote)) ∈ hs
  ∧ (b_"content-length", b_"10") ∈ hs
  ∧ (b_"last-modified", b_"Thu, 01 Jan 1970 00:16:40 GMT") ∈ hs
  ∧ (b_"etag", b_"e80786ba5d5115a725663846526304be") ∈ hs.
Proof.
  cbv zeta.
  destruct (file_init_stat_headers "x.txt" None None "x.txt" (stat_of 10 1000))
    as (Hdisposition & Hlength & Hmodified & Hetag & _).
  split; [|split; [|split]].
  - apply Hdisposition, not_elem_of_nil.
  - apply Hlength, not_elem_of_nil.
  - apply Hmodified, not_elem_of_nil.
  - apply Hetag, not_elem_of_nil.
Defined.

(** C7, witness: [FileResponse("hello.txt")] on the sample file system; at
    construction the one header is [content-type]. *)
Lemma file_call_defers_stat_witness :
  let self := FileResponse.init "hello.txt" None None None None in
  FileResponse.raw_headers self = [(b_"content-type", b_"text/plain; charset=utf-8")]
  ∧ (∃ rest,
       (FileResponse.call sample_fs self).1
       = (EvStat "hello.txt"
            :: EvSend
                 (Start 200
                    [(b_"content-type", b_"text/plain; charset=utf-8");
                     (b_"content-length", b_"5");
                     (b_"last-modified", b_"Thu, 01 Jan 1970 00:16:40 GMT");
                     (b_"etag", b_"a6760357ec5e293f98c860432f5d8e58")])
            :: rest)
       ∧ Forall (λ m, is_body m = true) (sent rest))
  ∧ (b_"etag", b_"a6760357ec5e293f98c860432f5d8e58")
      ∈ FileResponse.raw_headers
          (FileResponse.set_stat_headers (stat_of 5 1000) self).
Proof.
  cbv zeta.
  destruct (file_call_defers_stat "hello.txt" None None None sample_fs hello_txt eq_refl)
    as [Hlog Hcache].
  split; [reflexivity|]. split; [exact Hlog|].
  apply (Hcache "etag" "a6760357ec5e293f98c860432f5d8e58").
  - unfold cache_headers. rewrite !elem_of_cons. right. right. left. by vm_compute.
  - apply (bool_decide_unpack _). by vm_compute.
Defined.

(** C2 (the code departs from the claim).  A file of 4097 bytes, one more
    than the chunk size: [__call__] sends two body messages, of 4096 bytes
    and of 1 byte, and both carry [more_body=False]; none carries
    [more_body=True]. *)
Theorem file_chunks_all_marked_last :
  filter (λ m, is_body m)
    (sent (FileResponse.call sample_fs
             (FileResponse.init "big.bin" None None None None)).1)
  = [Body (replicate 4096 "000"%byte) (Some false);
     Body ["000"%byte] (Some false)].
Proof. by vm_compute. Qed.

(** * Further properties of the code *)

(** ** Header synthesis *)

(** X1.  [init_headers] with a mapping: the caller's entries come first, in
    the order of the mapping, each name in lower case and each value as
    given; what [init_headers] adds comes after them, and is at most one
    [content-length] entry, only when there is a body, and one
    [content-type] entry, only when a media type is set. *)
Theorem init_headers_supplied_first (body : option bytes) (media_type : option string)
    (items : dict) :
  ∃ auto,
    Response.init_headers body media_type (Some items) = lowered items ++ auto
    ∧ (length auto ≤ 2)%nat
    ∧ NoDup (fst <$> auto)
    ∧ ∀ h, h ∈ auto →
        (h.1 = b_"content-length" ∧ is_Some body)
        ∨ (h.1 = b_"content-type" ∧ is_Some media_type).
Proof.
  unfold Response.init_headers, lowered. cbv zeta.
  destruct body as [data|], media_type as [m|];
    repeat case_bool_decide;
    rewrite <- ?app_assoc;
    (eexists; split; [first [reflexivity | symmetry; apply app_nil_r]|]);
    (split; [cbn; lia|]);
    (split; [cbn; repeat (apply NoDup_cons; split);
             rewrite ?elem_of_cons, ?elem_of_nil; try apply NoDup_nil_2;
             intuition discriminate|]);
    intros h; cbn [app]; rewrite ?elem_of_cons, ?elem_of_nil;
    intros Hh; repeat destruct Hh as [Hh|Hh]; try done; subst h; eauto.
Qed.

Lemma lower_case_app (hs1 hs2 : list header) :
  lower_case (hs1 ++ hs2) ↔ lower_case hs1 ∧ lower_case hs2.
Proof. apply Forall_app. Qed.

Lemma lower_case_lowered (items : dict) : lower_case (lowered items).
Proof.
  unfold lower_case, lowered. apply Forall_fmap, Forall_forall.
  intros [k v] _. apply normalize_lower.
Qed.

Lemma lower_case_setdefault (key value : string) (raw : list header) :
  lower_case raw → lower_case (MutableHeaders.setdefault key value raw).
Proof.
  intros Hraw. unfold MutableHeaders.setdefault. cbv zeta.
  case_bool_decide; [done|].
  apply lower_case_app. split; [done|].
  apply Forall_singleton. apply normalize_lower.
Qed.

Lemma lower_case_init_headers (body : option bytes) (media_type : option string)
    (headers : option dict) :
  lower_case (Response.init_headers body media_type headers).
Proof.
  unfold Response.init_headers. cbv zeta.
  destruct headers as [items|]; cbv iota beta;
    destruct body, media_type; repeat case_bool_decide;
    repeat (apply lower_case_app; split);
    try apply lower_case_lowered; try apply Forall_nil_2;
    by apply Forall_singleton.
Qed.

(** X2.  Header names are in lower case in every sequence the code builds:
    the one [init_headers] synthesizes (for [Response] and
    [StreamingResponse]), the one [FileResponse.__init__] leaves, and the one
    [set_stat_headers] leaves when it starts from such a sequence, which is
    the one the start message of a [FileResponse] carries. *)
Theorem header_names_lower_case `{Platform} :
  (∀ body media_type headers,
     lower_case (Response.init_headers body media_type headers))
  ∧ (∀ path headers media_type filename stat_result,
       lower_case
         (FileResponse.raw_headers
            (FileResponse.init path headers media_type filename stat_result)))
  ∧ (∀ st self,
       lower_case (FileResponse.raw_headers self) →
       lower_case (FileResponse.raw_headers (FileResponse.set_stat_headers st self))).
Proof.
  assert (Hstat : ∀ st self,
    lower_case (FileResponse.raw_headers self) →
    lower_case (FileResponse.raw_headers (FileResponse.set_stat_headers st self))).
  { intros st self Hself. unfold FileResponse.set_stat_headers.
    cbn [FileResponse.raw_headers FileResponse.with_raw_headers].
    by do 3 apply lower_case_setdefault. }
  split; [apply lower_case_init_headers|]. split; [|exact Hstat].
  intros path headers media_type filename stat_result.
  assert (lower_case
            (FileResponse.raw_headers
               (FileResponse.init path headers media_type filename None))) as Hinit.
  { unfold FileResponse.init. cbn [FileResponse.raw_headers].
    destruct filename; [apply lower_case_setdefault|]; apply lower_case_init_headers. }
  destruct stat_result as [st|]; [|done].
  rewrite init_stat_raw_headers. by apply Hstat.
Qed.

(** ** Response *)

Lemma utf8_length (s : string) :
  length (encode_utf8 s) = (String.length s + non_ascii s)%nat.
Proof.
  induction s as [|c s IH]; [done|].
  cbn [encode_utf8 String.length non_ascii]. rewrite length_app, IH.
  unfold utf8_char. cbv zeta. destruct (N_of_ascii c <? 128)%N; cbn; lia.
Qed.

Lemma utf8_ascii (s : string) : non_ascii s = 0%nat → encode_utf8 s = encode_latin1 s.
Proof.
  induction s as [|c s IH]; [done|].
  cbn [encode_utf8 non_ascii]. unfold utf8_char. cbv zeta.
  destruct (N_of_ascii c <? 128)%N; [|done].
  intros Hs. rewrite IH by done. done.
Qed.

(** X3.  The length a [Response] announces is the length of what it sends,
    in bytes.  For a response built with [headers=None], from any content
    that renders: the header sequence has one [content-length] entry, and
    its value read as a decimal number is the length of the body of the one
    body message [__call__] sends. *)
Theorem response_length_matches_body (c : Response.cls) (content : value) (status : Z)
    (media_type : option string) (r : Response.t) :
  Response.init c content status None media_type = inr r →
  ∃ announced data,
    values_of b_"content-length" (Response.raw_headers r) = [encode_latin1 announced]
    ∧ bodies (sent (Response.call r).1) = [data]
    ∧ int_of_str announced = Some (N.of_nat (length data)).
Proof.
  intros Hinit. unfold Response.init in Hinit.
  destruct (Response.render content) as [e|data]; [done|].
  injection Hinit as <-.
  exists (str_int (N.of_nat (length data))), data.
  split; [|split; [done|apply str_int_decimal]].
  cbn [Response.raw_headers]. unfold Response.init_headers. cbv zeta iota beta.
  by destruct media_type as [m|]; [|destruct (Response.cls_media_type c)].
Qed.

(** X3, witness: an [HTMLResponse] with a text body. *)
Lemma response_length_matches_body_witness :
  ∃ r, Response.init Response.HTMLResponse (Str "<p>hi</p>") 200 None None = inr r
    ∧ ∃ announced data,
        values_of b_"content-length" (Response.raw_headers r) = [encode_latin1 announced]
        ∧ bodies (sent (Response.call r).1) = [data]
        ∧ int_of_str announced = Some (N.of_nat (length data)).
Proof.
  eexists. split; [reflexivity|].
  apply (response_length_matches_body Response.HTMLResponse (Str "<p>hi</p>") 200 None).
  reflexivity.
Defined.

(** For [str] content the announced length counts bytes, not
    characters: with [headers=None] the [content-length] is the number of
    code points plus the number of those that are not ASCII (each takes two
    bytes in UTF-8, for the code points below 256 that the embedding
    covers); when all are ASCII the body is the text byte for byte. *)
Theorem text_content_length (c : Response.cls) (s : string) (status : Z)
    (media_type : option string) :
  ∃ r, Response.init c (Str s) status None media_type = inr r
    ∧ length (Response.body r) = (String.length s + non_ascii s)%nat
    ∧ values_of b_"content-length" (Response.raw_headers r)
      = [encode_latin1 (str_int (N.of_nat (String.length s + non_ascii s)))]
    ∧ (non_ascii s = 0%nat → Response.body r = encode_latin1 s).
Proof.
  eexists. split; [reflexivity|]. cbn [Response.body Response.raw_headers].
  split; [apply utf8_length|]. split; [|apply utf8_ascii].
  rewrite <- utf8_length.
  unfold Response.init_headers. cbv zeta iota beta.
  by destruct media_type as [m|]; [|destruct (Response.cls_media_type c)].
Qed.

(** ** StreamingResponse *)

(** X4.  A chunk that is neither [bytes] nor [str], among the chunks an
    asynchronous iterable produces, ends [StreamingResponse.__call__] with
    [AttributeError] at that chunk: the
    start message and the chunks before it were sent, the chunks after it
    are not, and no message with [more_body=False] is sent. *)
Theorem streaming_call_bad_chunk (self : StreamingResponse.t)
    (before after : list value) (chunk : value) :
  StreamingResponse.body_iterator self = AsyncIterable (before ++ chunk :: after) →
  Forall (λ chunk, is_bytes_or_str chunk = true) before →
  is_bytes_or_str chunk = false →
  StreamingResponse.call self
  = (EvSend <$>
       (Start (StreamingResponse.status_code self) (StreamingResponse.raw_headers self)
          :: ((λ chunk, Body (chunk_bytes chunk) (Some true)) <$> before)),
     inl AttributeError)
  ∧ filter (λ m, terminal m) (sent (StreamingResponse.call self).1) = [].
Proof.
  intros Hchunks Hbefore Hchunk.
  assert (Hcall : StreamingResponse.call self
    = (EvSend <$>
         (Start (StreamingResponse.status_code self) (StreamingResponse.raw_headers self)
            :: ((λ chunk, Body (chunk_bytes chunk) (Some true)) <$> before)),
       inl AttributeError)).
  { unfold StreamingResponse.call. rewrite Hchunks.
    cbn [StreamingResponse.async_for].
    by rewrite (stream_bad_chunk _ _ _ Hbefore Hchunk). }
  split; [exact Hcall|]. rewrite Hcall. cbn [fst]. rewrite sent_send.
  rewrite filter_cons_False by (cbn; tauto). apply filter_terminal_more.
Qed.

(** X4, witness: the chunks ["a"], [3], ["b"]. *)
Lemma streaming_call_bad_chunk_witness :
  let self :=
    StreamingResponse.init (AsyncIterable [Str "a"; Int 3; Str "b"]) 200 None None in
  StreamingResponse.call self
  = ([EvSend (Start 200 []); EvSend (Body b_"a" (Some true))], inl AttributeError)
  ∧ filter (λ m, terminal m) (sent (StreamingResponse.call self).1) = [].
Proof.
  apply (streaming_call_bad_chunk
           (StreamingResponse.init (AsyncIterable [Str "a"; Int 3; Str "b"]) 200 None None)
           [Str "a"] [Str "b"] (Int 3)).
  - reflexivity.
  - by repeat constructor.
  - reflexivity.
Defined.

(** ** FileResponse: what is read and sent *)

Lemma bodies_app (ms1 ms2 : list message) : bodies (ms1 ++ ms2) = bodies ms1 ++ bodies ms2.
Proof. apply omap_app. Qed.

(** The bodies the read loop sends, put end to end, are the bytes it was
    given. *)
Lemma read_loop_concat (rest : bytes) :
  concat (bodies (sent (FileResponse.read_loop rest))) = rest.
Proof.
  funelim (FileResponse.read_loop rest).
  - cbn [sent omap list_omap bodies concat].
    fold (sent (FileResponse.read_loop (drop FileResponse.chunk_size rest))).
    fold (bodies (sent (FileResponse.read_loop (drop FileResponse.chunk_size rest)))).
    match goal with IH : concat _ = _ |- _ => rewrite IH end. apply take_drop.
  - cbn [sent omap list_omap bodies concat]. rewrite app_nil_r.
    pose proof (proj1 (Nat.eqb_neq _ _) e) as Hshort. rewrite length_take in Hshort.
    apply take_ge. lia.
Qed.

(** Whole chunks, then one short chunk. *)
Lemma read_loop_chunks (rest : bytes) :
  ∃ full final,
    bodies (sent (FileResponse.read_loop rest)) = full ++ [final]
    ∧ Forall (λ data, length data = FileResponse.chunk_size) full
    ∧ length full = (length rest / FileResponse.chunk_size)%nat
    ∧ length final = (length rest mod FileResponse.chunk_size)%nat.
Proof.
  funelim (FileResponse.read_loop rest).
  - match goal with IH : ∃ _, _ |- _ =>
      destruct IH as (full & final & Hbodies & Hfull & Hcount & Hfinal) end.
    pose proof (proj1 (Nat.eqb_eq _ _) e) as Hchunk.
    assert (FileResponse.chunk_size ≤ length rest)%nat as Hle
      by (rewrite length_take in Hchunk; lia).
    assert (length rest
            = (1 * FileResponse.chunk_size + (length rest - FileResponse.chunk_size))%nat)
      as Hsplit by lia.
    exists (take FileResponse.chunk_size rest :: full), final.
    cbn [sent omap list_omap bodies].
    fold (sent (FileResponse.read_loop (drop FileResponse.chunk_size rest))).
    fold (bodies (sent (FileResponse.read_loop (drop FileResponse.chunk_size rest)))).
    rewrite Hbodies. split; [done|]. split; [by apply Forall_cons|].
    rewrite length_drop in Hcount, Hfinal. split.
    + cbn [length]. rewrite Hcount. rewrite Hsplit at 2.
      rewrite Nat.div_add_l by done. lia.
    + rewrite Hfinal. rewrite Hsplit at 2.
      by rewrite Nat.add_comm, Nat.Div0.mod_add.
  - pose proof (proj1 (Nat.eqb_neq _ _) e) as Hshort. rewrite length_take in Hshort.
    assert (length rest < FileResponse.chunk_size)%nat as Hlt by lia.
    exists [], (take FileResponse.chunk_size rest).
    split; [done|]. split; [apply Forall_nil_2|]. split.
    + cbn [length]. by rewrite Nat.div_small.
    + rewrite length_take, Nat.mod_small by done. lia.
Qed.

(** The loop reads and sends, in turn; it neither opens nor closes. *)
Lemma read_loop_events (rest : bytes) :
  filter (λ ev, is_open ev) (FileResponse.read_loop rest) = []
  ∧ filter (λ ev, is_close ev) (FileResponse.read_loop rest) = []
  ∧ filter (λ ev, is_stat ev) (FileResponse.read_loop rest) = []
  ∧ length (filter (λ ev, is_read ev) (FileResponse.read_loop rest))
    = length (sent (FileResponse.read_loop rest)).
Proof.
  funelim (FileResponse.read_loop rest).
  - match goal with IH : _ ∧ _ |- _ => destruct IH as (Hopen & Hclose & Hstat & Hread) end.
    rewrite !(filter_cons_False (λ ev, is_open ev)) by (cbn; tauto).
    rewrite !(filter_cons_False (λ ev, is_close ev)) by (cbn; tauto).
    rewrite !(filter_cons_False (λ ev, is_stat ev)) by (cbn; tauto).
    rewrite (filter_cons_True (λ ev, is_read ev)) by done.
    rewrite (filter_cons_False (λ ev, is_read ev)) by (cbn; tauto).
    cbn [sent omap list_omap length].
    fold (sent (FileResponse.read_loop (drop FileResponse.chunk_size rest))).
    by rewrite Hread.
  - done.
Qed.

Lemma read_loop_reads_and_bodies (rest : bytes) :
  Forall (λ ev, is_read ev || (if ev is EvSend (Body _ _) then true else false))
    (FileResponse.read_loop rest).
Proof.
  funelim (FileResponse.read_loop rest); repeat apply Forall_cons_2;
    try done; apply Forall_nil_2.
Qed.

Section FileTransmission.
Context `{Platform}.

Implicit Types (self : FileResponse.t) (st : FileResponse.stat_result).
Implicit Types (fs : gmap string FileResponse.file).

(** X5.  [FileResponse.__call__] transmits the file: when the file exists,
    the bodies of the body messages, put end to end in the order they are
    sent, are the bytes of the file, whatever its length. *)
Theorem file_call_transmits_file fs self (f : FileResponse.file) :
  fs !! FileResponse.path self = Some f →
  concat (bodies (sent (FileResponse.call fs self).1)) = FileResponse.file_data f.
Proof.
  intros Hf. rewrite call_sent, Hf.
  destruct (FileResponse.stat self); cbn [bodies omap list_omap];
    apply read_loop_concat.
Qed.

(** X6.  The body messages of a [FileResponse] carry the file in chunks of
    [chunk_size] bytes followed by one shorter chunk: there are
    [len // chunk_size] full chunks, and the last body has [len % chunk_size]
    bytes, so that an empty file gives one empty body, and a file of a whole
    number of chunks ends with an empty body. *)
Theorem file_call_chunk_sizes fs self (f : FileResponse.file) :
  fs !! FileResponse.path self = Some f →
  ∃ full final,
    bodies (sent (FileResponse.call fs self).1) = full ++ [final]
    ∧ Forall (λ data, length data = FileResponse.chunk_size) full
    ∧ length full = (length (FileResponse.file_data f) / FileResponse.chunk_size)%nat
    ∧ length final = (length (FileResponse.file_data f) mod FileResponse.chunk_size)%nat.
Proof.
  intros Hf. rewrite call_sent, Hf.
  destruct (FileResponse.stat self); cbn [bodies omap list_omap];
    apply read_loop_chunks.
Qed.

(** X7.  The file handle of [FileResponse.__call__]: when the file exists,
    the log is the operations before the file is opened (the [stat], if any,
    and the start message), the opening, the loop, which reads once for each
    body message it sends and touches no handle, and the closing, last.
    When the file does not exist, nothing is opened, read or closed. *)
Theorem file_call_handle fs self :
  (∀ f, fs !! FileResponse.path self = Some f →
     ∃ before loop,
       (FileResponse.call fs self).1
       = before ++ [EvOpen (FileResponse.path self)] ++ loop ++ [EvClose]
       ∧ Forall (λ ev, is_stat ev || (if ev is EvSend (Start _ _) then true else false))
           before
       ∧ Forall (λ ev, is_read ev || (if ev is EvSend (Body _ _) then true else false))
           loop
       ∧ length (filter (λ ev, is_read ev) loop) = length (sent loop))
  ∧ (fs !! FileResponse.path self = None →
       Forall (λ ev, negb (is_open ev || is_read ev || is_close ev))
         (FileResponse.call fs self).1).
Proof.
  split.
  - intros f Hf. rewrite call_log, Hf.
    pose proof (read_loop_reads_and_bodies (FileResponse.file_data f)) as Hloop.
    destruct (FileResponse.stat self).
    + eexists [_], _. split; [reflexivity|].
      split; [by apply Forall_singleton|]. split; [done|].
      apply read_loop_events.
    + eexists [_; _], _. split; [reflexivity|].
      split; [by repeat apply Forall_cons_2|]. split; [done|].
      apply read_loop_events.
  - intros Hf. rewrite call_log, Hf.
    destruct (FileResponse.stat self); by apply Forall_singleton.
Qed.

End FileTransmission.

(** X5, witness: the file of 4097 bytes. *)
Lemma file_call_transmits_file_witness :
  concat (bodies (sent (FileResponse.call sample_fs
                          (FileResponse.init "big.bin" None None None None)).1))
  = replicate 4097 "000"%byte.
Proof.
  exact (file_call_transmits_file sample_fs
           (FileResponse.init "big.bin" None None None None) big_bin eq_refl).
Defined.

(** X6, witness: the file of 4097 bytes, in a chunk of 4096 and one of 1. *)
Lemma file_call_chunk_sizes_witness :
  ∃ full final,
    bodies (sent (FileResponse.call sample_fs
                    (FileResponse.init "big.bin" None None None None)).1)
    = full ++ [final]
    ∧ Forall (λ data, length data = 4096%nat) full
    ∧ length full = 1%nat
    ∧ length final = 1%nat.
Proof.
  exact (file_call_chunk_sizes sample_fs
           (FileResponse.init "big.bin" None None None None) big_bin eq_refl).
Defined.

(** ** FileResponse: the cache headers *)

Lemma setdefault_shape (key value : string) (raw : list header) :
  MutableHeaders.setdefault key value raw
  = raw ++ filter (λ h, h.1 ∉ fst <$> raw)
             [(encode_latin1 (lower key), encode_latin1 value)].
Proof.
  unfold MutableHeaders.setdefault. cbv zeta. case_bool_decide.
  - rewrite filter_cons_False by (cbn; tauto). by rewrite filter_nil, app_nil_r.
  - by rewrite filter_cons_True.
Qed.

Lemma setdefault_has_key (key value : string) (raw : list header) :
  encode_latin1 (lower key) ∈ fst <$> MutableHeaders.setdefault key value raw.
Proof.
  unfold MutableHeaders.setdefault. cbv zeta. case_bool_decide; [done|].
  rewrite fmap_app, elem_of_app. right. by apply list_elem_of_singleton.
Qed.

Lemma filter_head_app (P : header → Prop) `{∀ h, Decision (P h)} (h : header)
    (hs : list header) :
  filter P (h :: hs) = filter P [h] ++ filter P hs.
Proof. exact (filter_app P [h] hs). Qed.

Lemma fresh_filter_app (raw extra : list header) (h : header) :
  h.1 ∉ fst <$> extra →
  filter (λ x, x.1 ∉ fst <$> raw ++ extra) [h] = filter (λ x, x.1 ∉ fst <$> raw) [h].
Proof.
  intros Hextra. destruct (decide (h.1 ∈ fst <$> raw)) as [Hin|Hnotin].
  - rewrite !filter_cons_False; [done|cbn; tauto|].
    rewrite fmap_app, elem_of_app. cbn. tauto.
  - rewrite !filter_cons_True; [done..|].
    rewrite fmap_app, elem_of_app. tauto.
Qed.

Lemma fresh_filter_keys (raw : list header) (h : header) (name : bytes) :
  name ∈ fst <$> filter (λ x, x.1 ∉ fst <$> raw) [h] → name = h.1.
Proof.
  intros (x & -> & Hx)%list_elem_of_fmap.
  apply list_elem_of_filter in Hx as [_ Hx].
  by apply list_elem_of_singleton in Hx as ->.
Qed.

Section FileCacheHeaders.
Context `{Platform}.

Implicit Types (self : FileResponse.t) (st : FileResponse.stat_result).
Implicit Types (fs : gmap string FileResponse.file).

(** The cache headers as entries of a header sequence. *)
Lemma set_stat_headers_appended st self :
  FileResponse.raw_headers (FileResponse.set_stat_headers st self)
  = FileResponse.raw_headers self
    ++ filter (λ h, h.1 ∉ fst <$> FileResponse.raw_headers self)
         ((λ '(k, v), (encode_latin1 k, encode_latin1 v)) <$> cache_headers st).
Proof.
  unfold FileResponse.set_stat_headers.
  cbn [FileResponse.raw_headers FileResponse.with_raw_headers].
  generalize (FileResponse.raw_headers self). intros raw.
  rewrite !setdefault_shape.
  rewrite !fresh_filter_app by (intros Heq%fresh_filter_keys; cbn in Heq; discriminate).
  unfold cache_headers. cbn [fmap list_fmap].
  rewrite (filter_head_app _ _ [_; _]), (filter_head_app _ _ [_]).
  by rewrite <- !app_assoc.
Qed.

Lemma set_stat_headers_has_keys st self (key : string) :
  key ∈ ["content-length"; "last-modified"; "etag"] →
  encode_latin1 key ∈ fst <$> FileResponse.raw_headers (FileResponse.set_stat_headers st self).
Proof.
  rewrite !elem_of_cons, elem_of_nil. unfold FileResponse.set_stat_headers.
  cbn [FileResponse.raw_headers FileResponse.with_raw_headers].
  intros [->|[->|[->|[]]]].
  - do 2 apply setdefault_keys_mono.
    apply (setdefault_has_key "content-length").
  - apply setdefault_keys_mono. apply (setdefault_has_key "last-modified").
  - apply (setdefault_has_key "etag").
Qed.

Lemma set_stat_headers_twice st st' self :
  FileResponse.raw_headers
    (FileResponse.set_stat_headers st' (FileResponse.set_stat_headers st self))
  = FileResponse.raw_headers (FileResponse.set_stat_headers st self).
Proof.
  rewrite (set_stat_headers_appended st').
  unfold cache_headers. cbn [fmap list_fmap].
  rewrite !filter_cons_False, filter_nil; [by rewrite app_nil_r|..];
    cbn [fst]; intros Hnotin; apply Hnotin; apply set_stat_headers_has_keys;
    rewrite !elem_of_cons; tauto.
Qed.

(** X8.  [set_stat_headers] leaves the entries of the sequence as they are
    and where they are, and appends after them the cache headers whose names
    the sequence does not have, in the order [content-length],
    [last-modified], [etag]: at most three entries, and none on a second
    call, whatever the second [stat_result]. *)
Theorem set_stat_headers_appends st self :
  let raw := FileResponse.raw_headers self in
  let added :=
    filter (λ h, h.1 ∉ fst <$> raw)
      ((λ '(k, v), (encode_latin1 k, encode_latin1 v)) <$> cache_headers st) in
  FileResponse.raw_headers (FileResponse.set_stat_headers st self) = raw ++ added
  ∧ (length added ≤ 3)%nat
  ∧ (∀ st',
       FileResponse.raw_headers
         (FileResponse.set_stat_headers st' (FileResponse.set_stat_headers st self))
       = raw ++ added).
Proof.
  cbv zeta. split; [apply set_stat_headers_appended|]. split.
  - etrans; [apply length_filter|]. done.
  - intros st'. rewrite set_stat_headers_twice. apply set_stat_headers_appended.
Qed.

Lemma call_ok fs self (f : FileResponse.file) :
  fs !! FileResponse.path self = Some f →
  (FileResponse.call fs self).2
  = inr match FileResponse.stat self with
        | None => FileResponse.set_stat_headers (FileResponse.file_stat f) self
        | Some _ => self
        end.
Proof.
  intros Hf.
  unfold FileResponse.call, FileResponse.aio_stat, FileResponse.aio_open,
    FileResponse.closing, bind, send, ret.
  destruct (FileResponse.stat self) as [st|];
    rewrite Hf; cbv beta iota; rewrite ?set_stat_headers_path, ?Hf; done.
Qed.

(** X9.  With a [stat_result] given at construction, [__call__] never
    calls [stat]: the start message is its first operation and carries the
    headers of construction, and a call that ends well leaves the response
    as it was.  When the file does not exist, the start message is sent all
    the same, and [FileNotFoundError] is raised after it: the response is
    begun and gets no body message. *)
Theorem file_call_with_stat fs path headers media_type filename st :
  let self := FileResponse.init path headers media_type filename (Some st) in
  filter (λ ev, is_stat ev) (FileResponse.call fs self).1 = []
  ∧ head (FileResponse.call fs self).1
    = Some (EvSend (Start 200 (FileResponse.raw_headers self)))
  ∧ (∀ self', (FileResponse.call fs self).2 = inr self' → self' = self)
  ∧ (fs !! path = None →
       FileResponse.call fs self
       = ([EvSend (Start 200 (FileResponse.raw_headers self))], inl FileNotFoundError)).
Proof.
  cbv zeta.
  set (self := FileResponse.init path headers media_type filename (Some st)).
  assert (Hstat : FileResponse.stat self = Some st) by done.
  assert (Hpath : FileResponse.path self = path) by done.
  assert (Hstatus : FileResponse.status_code self = 200%Z) by done.
  split; [|split; [|split]].
  - rewrite call_log, Hstat, Hpath, Hstatus.
    destruct (fs !! path) as [f|]; [|done].
    rewrite filter_cons_False by (cbn; tauto).
    rewrite filter_cons_False by (cbn; tauto).
    rewrite filter_app. destruct (read_loop_events (FileResponse.file_data f))
      as (_ & _ & -> & _). done.
  - rewrite call_log, Hstat, Hpath, Hstatus. by destruct (fs !! path).
  - intros self'. destruct (fs !! path) as [f|] eqn:Hf.
    + rewrite (call_ok fs self f) by by rewrite Hpath. rewrite Hstat. congruence.
    + unfold FileResponse.call, FileResponse.aio_open, bind, send, ret.
      rewrite Hstat, Hpath, Hf. done.
  - intros Hf. unfold FileResponse.call, FileResponse.aio_open, bind, send, ret.
    rewrite Hstat, Hpath, Hstatus, Hf. done.
Qed.

(** X10.  A [FileResponse] built without a [stat_result] and transmitted
    twice: the first call, for a file that exists, ends well; the second
    call calls [stat] again, and its start message carries the cache headers
    of the first call, whatever the file has become. *)
Theorem file_call_twice fs1 fs2 path headers media_type filename
    (f1 f2 : FileResponse.file) :
  fs1 !! path = Some f1 →
  fs2 !! path = Some f2 →
  let self := FileResponse.init path headers media_type filename None in
  ∃ self1,
    (FileResponse.call fs1 self).2 = inr self1
    ∧ ∃ rest,
        (FileResponse.call fs2 self1).1
        = EvStat path
            :: EvSend
                 (Start 200
                    (FileResponse.raw_headers
                       (FileResponse.set_stat_headers (FileResponse.file_stat f1) self)))
            :: rest.
Proof.
  intros Hf1 Hf2. cbv zeta.
  set (self := FileResponse.init path headers media_type filename None).
  exists (FileResponse.set_stat_headers (FileResponse.file_stat f1) self). split.
  - by rewrite (call_ok fs1 self f1).
  - rewrite call_log, set_stat_headers_path, set_stat_headers_status.
    change (FileResponse.stat (FileResponse.set_stat_headers _ self))
      with (@None FileResponse.stat_result).
    change (FileResponse.path self) with path.
    change (FileResponse.status_code self) with 200%Z.
    rewrite Hf2, set_stat_headers_twice. by eexists.
Qed.

End FileCacheHeaders.

(** X10, witness: [hello.txt] is rewritten between the two calls; the second
    start message still announces 5 bytes and the first modification time. *)
Lemma file_call_twice_witness :
  let self := FileResponse.init "hello.txt" None None None None in
  ∃ self1,
    (FileResponse.call sample_fs self).2 = inr self1
    ∧ ∃ rest,
        (FileResponse.call sample_fs_later self1).1
        = EvStat "hello.txt"
            :: EvSend
                 (Start 200
                    [(b_"content-type", b_"text/plain; charset=utf-8");
                     (b_"content-length", b_"5");
                     (b_"last-modified", b_"Thu, 01 Jan 1970 00:16:40 GMT");
                     (b_"etag", b_"a6760357ec5e293f98c860432f5d8e58")])
            :: rest.
Proof.
  exact (file_call_twice sample_fs sample_fs_later "hello.txt" None None None
           hello_txt hello_txt_later eq_refl eq_refl).
Defined.

(** ** The values under a name *)

Lemma values_of_app (name : bytes) (hs1 hs2 : list header) :
  values_of name (hs1 ++ hs2) = values_of name hs1 ++ values_of name hs2.
Proof. unfold values_of. by rewrite filter_app, fmap_app. Qed.

Lemma values_of_here (name value : bytes) (hs : list header) :
  values_of name ((name, value) :: hs) = value :: values_of name hs.
Proof. unfold values_of. by rewrite filter_cons_True. Qed.

Lemma values_of_absent (name : bytes) (raw : list header) :
  name ∉ fst <$> raw → values_of name raw = [].
Proof.
  intros Hname. unfold values_of.
  induction raw as [|h raw IH]; [done|].
  rewrite fmap_cons, not_elem_of_cons in Hname. destruct Hname as [Hh Hraw].
  rewrite filter_cons_False by (intros Heq; by apply Hh). by apply IH.
Qed.

Lemma values_of_setdefault_other (name : bytes) (key value : string) (raw : list header) :
  name ≠ encode_latin1 (lower key) →
  values_of name (MutableHeaders.setdefault key value raw) = values_of name raw.
Proof.
  intros Hname. unfold MutableHeaders.setdefault. cbv zeta.
  case_bool_decide; [done|].
  rewrite values_of_app. unfold values_of at 2.
  rewrite filter_cons_False by (cbn; congruence). by rewrite app_nil_r.
Qed.

Lemma values_of_setdefault_fresh (key value : string) (raw : list header) :
  encode_latin1 (lower key) ∉ fst <$> raw →
  values_of (encode_latin1 (lower key)) (MutableHeaders.setdefault key value raw)
  = [encode_latin1 value].
Proof.
  intros Hfresh. unfold MutableHeaders.setdefault. cbv zeta.
  rewrite bool_decide_eq_false_2 by done.
  rewrite values_of_app, values_of_absent by done.
  unfold values_of. by rewrite filter_cons_True.
Qed.

Section FileHeaders.
Context `{Platform}.

Implicit Types (self : FileResponse.t) (st : FileResponse.stat_result).
Implicit Types (fs : gmap string FileResponse.file).

(** X11.  The length a [FileResponse] announces is the length of what it
    sends when [stat] tells the size of the file: for a response built
    without a [stat_result] and without a [content-length] of the caller,
    and a file whose [st_size] is its number of bytes, the start message has
    one [content-length] entry, and its value read as a decimal number is
    the total length of the bodies sent. *)
Theorem file_length_matches_body fs path headers media_type filename
    (f : FileResponse.file) :
  fs !! path = Some f →
  st_size (FileResponse.file_stat f) = N.of_nat (length (FileResponse.file_data f)) →
  "content-length" ∉ supplied headers →
  let self := FileResponse.init path headers media_type filename None in
  ∃ hs announced,
    head (sent (FileResponse.call fs self).1) = Some (Start 200 hs)
    ∧ values_of b_"content-length" hs = [encode_latin1 announced]
    ∧ int_of_str announced
      = Some (N.of_nat (length (concat (bodies (sent (FileResponse.call fs self).1))))).
Proof.
  intros Hf Hsize Hkey. cbv zeta.
  set (self := FileResponse.init path headers media_type filename None).
  exists (FileResponse.raw_headers
            (FileResponse.set_stat_headers (FileResponse.file_stat f) self)),
    (str_int (st_size (FileResponse.file_stat f))).
  split; [|split].
  - rewrite call_sent.
    change (FileResponse.stat self) with (@None FileResponse.stat_result).
    change (FileResponse.path self) with path. by rewrite Hf.
  - unfold FileResponse.set_stat_headers.
    cbn [FileResponse.raw_headers FileResponse.with_raw_headers].
    rewrite !values_of_setdefault_other by discriminate.
    apply (values_of_setdefault_fresh "content-length").
    intros [Hs|[Heq|Heq]]%file_init_keys; done.
  - assert (concat (bodies (sent (FileResponse.call fs self).1))
            = FileResponse.file_data f) as ->.
    { rewrite call_sent.
      change (FileResponse.stat self) with (@None FileResponse.stat_result).
      change (FileResponse.path self) with path. rewrite Hf.
      cbn [bodies omap list_omap]. apply read_loop_concat. }
    rewrite <- Hsize. apply str_int_decimal.
Qed.

(** X12.  Without a filename there is no [content-disposition] of the
    code's making: when the caller supplied none, the header sequence has
    none, at construction and after [set_stat_headers]. *)
Theorem file_init_no_disposition path headers media_type
    (stat_result : option FileResponse.stat_result) :
  "content-disposition" ∉ supplied headers →
  let self := FileResponse.init path headers media_type None stat_result in
  values_of b_"content-disposition" (FileResponse.raw_headers self) = []
  ∧ ∀ st,
      values_of b_"content-disposition"
        (FileResponse.raw_headers (FileResponse.set_stat_headers st self)) = [].
Proof.
  intros Hkey. cbv zeta.
  assert (Hinit : values_of b_"content-disposition"
            (FileResponse.raw_headers
               (FileResponse.init path headers media_type None None)) = []).
  { apply values_of_absent. unfold FileResponse.init. cbn [FileResponse.raw_headers].
    intros [Hs|Heq]%init_headers_keys; done. }
  assert (Hset : ∀ st self,
    values_of b_"content-disposition" (FileResponse.raw_headers self) = [] →
    values_of b_"content-disposition"
      (FileResponse.raw_headers (FileResponse.set_stat_headers st self)) = []).
  { intros st self Hself. unfold FileResponse.set_stat_headers.
    cbn [FileResponse.raw_headers FileResponse.with_raw_headers].
    by rewrite !values_of_setdefault_other by discriminate. }
  assert (values_of b_"content-disposition"
            (FileResponse.raw_headers
               (FileResponse.init path headers media_type None stat_result)) = [])
    as Hself.
  { destruct stat_result as [st0|]; [|done].
    rewrite init_stat_raw_headers. by apply Hset. }
  split; [done|]. intros st. by apply Hset.
Qed.

(** X13.  A [FileResponse] built with [headers=None] announces one content
    type, in the first header: the media type given, or else the guess from
    the filename (from the path when the filename is missing or empty), or
    else [text/plain]; the charset is appended when the type starts with
    [text/].  The media type guessed is never empty. *)
Theorem file_init_content_type path media_type filename
    (stat_result : option FileResponse.stat_result) :
  let self := FileResponse.init path None media_type filename stat_result in
  head (FileResponse.raw_headers self)
  = Some (b_"content-type", encode_latin1 (content_type_of (FileResponse.media_type self)))
  ∧ values_of b_"content-type" (FileResponse.raw_headers self)
    = [encode_latin1 (content_type_of (FileResponse.media_type self))]
  ∧ FileResponse.media_type self
    = match media_type with
      | Some m => m
      | None =>
          let name :=
            match filename with
            | Some (String c f) => String c f
            | _ => path
            end in
          match guess_type name with
          | Some (String c m) => String c m
          | _ => "text/plain"
          end
      end
  ∧ (media_type = None → FileResponse.media_type self ≠ EmptyString).
Proof.
  cbv zeta.
  set (self := FileResponse.init path None media_type filename None).
  assert (Hmedia : ∀ stat_result,
    FileResponse.media_type (FileResponse.init path None media_type filename stat_result)
    = FileResponse.media_type self) by by intros [].
  assert (Hguess : FileResponse.media_type self
    = match media_type with
      | Some m => m
      | None =>
          let name :=
            match filename with
            | Some (String c f) => String c f
            | _ => path
            end in
          match guess_type name with
          | Some (String c m) => String c m
          | _ => "text/plain"
          end
      end).
  { unfold self, FileResponse.init, FileResponse.guess_media_type.
    destruct media_type as [m|]; [done|]. cbv zeta. cbn [FileResponse.media_type].
    destruct filename as [[|c f]|]; cbn [bool_decide decide_rel];
      try (rewrite bool_decide_eq_true_2 by done);
      try (rewrite bool_decide_eq_false_2 by done);
      destruct (guess_type _) as [[|c' m]|]; try done;
      try (by rewrite bool_decide_eq_true_2);
      by rewrite bool_decide_eq_false_2. }
  assert (Hraw : ∃ rest,
    FileResponse.raw_headers self
    = (b_"content-type", encode_latin1 (content_type_of (FileResponse.media_type self)))
        :: rest
    ∧ values_of b_"content-type" rest = []).
  { unfold self, FileResponse.init. cbn [FileResponse.raw_headers FileResponse.media_type].
    destruct filename as [name|].
    - rewrite setdefault_shape. eexists. split; [reflexivity|].
      apply values_of_absent.
      intros Heq%fresh_filter_keys. cbn in Heq. discriminate.
    - by exists []. }
  destruct Hraw as (rest & Hraw & Hrest).
  assert (Hall : ∀ stat_result, ∃ rest',
    FileResponse.raw_headers (FileResponse.init path None media_type filename stat_result)
    = (b_"content-type", encode_latin1 (content_type_of (FileResponse.media_type self)))
        :: rest'
    ∧ values_of b_"content-type" rest' = []).
  { intros [st|]; [|by exists rest].
    rewrite init_stat_raw_headers. fold self.
    rewrite set_stat_headers_appended, Hraw. eexists. split; [reflexivity|].
    rewrite values_of_app, Hrest. apply values_of_absent.
    intros (h & Hname & Hh)%list_elem_of_fmap.
    apply list_elem_of_filter in Hh as [_ Hh].
    unfold cache_headers in Hh. cbn [fmap list_fmap] in Hh.
    rewrite !elem_of_cons, elem_of_nil in Hh.
    destruct Hh as [->|[->|[->|[]]]]; discriminate. }
  destruct (Hall stat_result) as (rest' & Hraw' & Hrest').
  rewrite Hmedia, Hraw'. split; [done|]. split; [|split; [done|]].
  - by rewrite values_of_here, Hrest'.
  - intros ->. rewrite Hguess. cbv zeta. by destruct (guess_type _) as [[|c m]|].
Qed.

End FileHeaders.

(** ** On a channel that fails *)

Lemma on_budget_ret {A} (a : A) : on_budget (Failing.ret a) (ret a).
Proof.
  intros budget. cbn. split; [by destruct budget|].
  split; [intros _; by rewrite Nat.sub_0_r|lia].
Qed.

Lemma on_budget_send (m : message) : on_budget (Failing.send m) (send m).
Proof.
  intros [|budget]; cbn; rewrite ?take_nil; (split; [done|]); split;
    try lia; try done.
  intros _. by rewrite Nat.sub_0_r.
Qed.

Lemma on_budget_lift {A} (t : io A) :
  sent t.1 = [] → on_budget (Failing.lift t) t.
Proof.
  intros Hsent budget. destruct t as [log r]. cbn in *.
  rewrite Hsent. cbn. split; [by destruct budget|].
  split; [intros _; by rewrite Nat.sub_0_r|lia].
Qed.

Lemma on_budget_bind {A B} (m : Failing.co A) (t : io A)
    (k : A → Failing.co B) (kt : A → io B) :
  on_budget m t → (∀ a, on_budget (k a) (kt a)) →
  on_budget (Failing.bind m k) (bind t kt).
Proof.
  intros Hm Hk budget.
  destruct (Hm budget) as (Hsent & Henough & Hshort).
  unfold Failing.bind, bind.
  destruct t as [tlog [e|a]]; cbn [fst snd] in *.
  - destruct (decide (length (sent tlog) ≤ budget)%nat) as [Hle|Hgt].
    + rewrite (Henough Hle). cbn. split; [by rewrite take_ge|].
      split; [done|lia].
    + destruct (Hshort ltac:(lia)) as [Hr Hleft].
      destruct (m budget) as [[log r] remaining]. cbn in *. subst r remaining.
      split; [done|]. split; [lia|done].
  - destruct (kt a) as [tlog' tr'] eqn:Hkt. cbn [fst snd].
    rewrite sent_app, length_app.
    destruct (decide (length (sent tlog) ≤ budget)%nat) as [Hle|Hgt].
    + rewrite (Henough Hle). cbn [lift_outcome].
      pose proof (Hk a (budget - length (sent tlog))%nat) as (Hsent' & Henough' & Hshort').
      rewrite Hkt in Hsent', Henough', Hshort'. cbn [fst snd] in *.
      destruct (k a (budget - length (sent tlog))%nat) as [[log' r'] remaining'] eqn:Hka.
      cbn [fst snd] in *. rewrite sent_app, Hsent'.
      split; [by rewrite take_app, (take_ge (sent tlog))|]. split.
      * intros Hall.
        assert (length (sent tlog') ≤ budget - length (sent tlog))%nat as Hfit by lia.
        injection (Henough' Hfit) as -> -> ->.
        f_equal. lia.
      * intros Hless. apply Hshort'. lia.
    + destruct (Hshort ltac:(lia)) as [Hr Hleft].
      destruct (m budget) as [[log r] remaining]. cbn in *. subst r remaining.
      cbn. rewrite Hsent. split; [|split; [lia|done]].
      rewrite take_app_le by lia. done.
Qed.

(** X14.  [Response.__call__] on a channel that fails: the messages
    delivered are the first of the two, as many as the channel accepts; when
    it accepts fewer than two, the call ends with the exception of [send],
    and the body is not delivered unless the start message was. *)
Theorem response_call_on_budget (self : Response.t) :
  on_budget (Failing.Response_call self) (Response.call self).
Proof.
  unfold Failing.Response_call, Response.call.
  apply on_budget_bind; [apply on_budget_send|]. intros _. apply on_budget_send.
Qed.

Lemma stream_on_budget (chunks : list value) :
  on_budget (Failing.stream chunks) (StreamingResponse.stream chunks).
Proof.
  induction chunks as [|chunk chunks IH]; [apply on_budget_ret|].
  cbn [Failing.stream StreamingResponse.stream].
  apply on_budget_bind; [apply on_budget_lift; by destruct chunk|].
  intros data. apply on_budget_bind; [apply on_budget_send|]. by intros _.
Qed.

(** X15.  [StreamingResponse.__call__] on a channel that fails, for any
    content and any chunks: the messages delivered are the first messages of the run on a
    channel that accepts all, as many as the channel accepts; when it
    accepts fewer than that run sends, the call ends with the exception of
    [send] and the chunks that remain are not looked at; when it accepts
    them all, the call ends as that run does. *)
Theorem streaming_call_on_budget (self : StreamingResponse.t) :
  on_budget (Failing.StreamingResponse_call self) (StreamingResponse.call self).
Proof.
  unfold Failing.StreamingResponse_call, StreamingResponse.call.
  apply on_budget_bind; [apply on_budget_send|]. intros _.
  apply on_budget_bind; [|intros _; apply on_budget_send].
  destruct (StreamingResponse.body_iterator self) as [chunks|items];
    [apply stream_on_budget|by apply on_budget_lift].
Qed.

Lemma read_loop_unfold (rest : bytes) :
  FileResponse.read_loop rest
  = EvRead FileResponse.chunk_size
      :: EvSend (Body (take FileResponse.chunk_size rest) (Some false))
      :: (if (length (take FileResponse.chunk_size rest) =? FileResponse.chunk_size)%nat
          then FileResponse.read_loop (drop FileResponse.chunk_size rest)
          else []).
Proof. funelim (FileResponse.read_loop rest); by rewrite e. Qed.

Lemma failing_read_loop_unfold (rest : bytes) (budget : nat) :
  Failing.read_loop rest budget
  = match budget with
    | O => ([EvRead FileResponse.chunk_size], inl SendFailed, O)
    | S remaining =>
        if (length (take FileResponse.chunk_size rest) =? FileResponse.chunk_size)%nat
        then
          let '(log, r, remaining') :=
            Failing.read_loop (drop FileResponse.chunk_size rest) remaining in
          (EvRead FileResponse.chunk_size
             :: EvSend (Body (take FileResponse.chunk_size rest) (Some false))
             :: log,
           r, remaining')
        else
          ([EvRead FileResponse.chunk_size;
            EvSend (Body (take FileResponse.chunk_size rest) (Some false))],
           inr tt, remaining)
    end.
Proof. funelim (Failing.read_loop rest budget); by rewrite ?e. Qed.

Lemma read_loop_on_budget (rest : bytes) :
  on_budget (Failing.read_loop rest) (FileResponse.read_loop rest, inr tt).
Proof.
  funelim (FileResponse.read_loop rest); intros budget;
    rewrite failing_read_loop_unfold; cbn [fst snd];
    destruct budget as [|budget]; rewrite ?e;
    cbn [sent omap list_omap length fst snd lift_outcome].
  - split; [done|]. split; [lia|done].
  - fold (sent (FileResponse.read_loop (drop FileResponse.chunk_size rest))).
    match goal with IH : on_budget _ _ |- _ =>
      destruct (IH budget) as (Hsent & Henough & Hshort) end.
    clear Heqcall.
    generalize dependent (FileResponse.read_loop (drop FileResponse.chunk_size rest)).
    intros tlog _ Hsent Henough Hshort.
    generalize dependent (Failing.read_loop (drop FileResponse.chunk_size rest) budget).
    intros [[log r] remaining] Hsent Henough Hshort.
    cbn [fst snd] in *. unfold sent at 1. cbn [omap list_omap]. fold (sent log).
    rewrite Hsent. cbn [take].
    split; [done|]. split.
    + intros Hall.
      assert (length (sent tlog) ≤ budget)%nat as Hfit by lia.
      injection (Henough Hfit) as -> -> ->.
      replace (S budget - S (length (sent tlog)))%nat
        with (budget - length (sent tlog))%nat by lia.
      reflexivity.
    + intros Hless. apply Hshort. lia.
  - split; [done|]. split; [lia|done].
  - cbn [take]. rewrite take_nil. split; [done|]. split; [|lia].
    intros _. f_equal. lia.
Qed.

Lemma closing_on_budget {A} (m : Failing.co A) (t : io A) :
  on_budget m t → on_budget (Failing.closing m) (FileResponse.closing t).
Proof.
  intros Hm budget. destruct (Hm budget) as (Hsent & Henough & Hshort).
  unfold Failing.closing, FileResponse.closing.
  destruct t as [tlog tr], (m budget) as [[log r] remaining].
  cbn [fst snd] in *. rewrite !sent_app. cbn [sent omap list_omap].
  rewrite !app_nil_r. split; [done|]. split; [|done].
  intros Hall. by injection (Henough Hall) as -> -> ->.
Qed.

(** The loop on a failing channel touches no handle either. *)
Lemma failing_read_loop_events (rest : bytes) (budget : nat) :
  Forall (λ ev, negb (is_open ev || is_close ev || is_stat ev))
    (Failing.read_loop rest budget).1.1.
Proof.
  funelim (Failing.read_loop rest budget); cbn [fst].
  - by apply Forall_singleton.
  - destruct (Failing.read_loop (drop FileResponse.chunk_size rest) remaining)
      as [[log r] remaining'].
    cbn [fst] in *. by repeat apply Forall_cons_2.
  - by apply Forall_singleton.
  - by repeat apply Forall_cons_2.
Qed.

Section FileOnChannel.
Context `{Platform}.

Implicit Types (self : FileResponse.t) (fs : gmap string FileResponse.file).

(** X16.  [FileResponse.__call__] on a channel that fails: the messages
    delivered are the first messages of the run on a channel that accepts
    all, as many as the channel accepts; when it accepts fewer than that run
    sends, the call ends with the exception of [send]; when it accepts them
    all, the call does what that run does. *)
Theorem file_call_on_budget fs self :
  on_budget (Failing.FileResponse_call fs self) (FileResponse.call fs self).
Proof.
  unfold Failing.FileResponse_call, FileResponse.call.
  apply on_budget_bind.
  { destruct (FileResponse.stat self); [apply on_budget_ret|].
    apply on_budget_bind; [by apply on_budget_lift|].
    intros st. apply on_budget_ret. }
  intros self'. apply on_budget_bind; [apply on_budget_send|]. intros _.
  apply on_budget_bind.
  { apply on_budget_lift. unfold FileResponse.aio_open.
    by destruct (fs !! FileResponse.path self'). }
  intros rest. apply on_budget_bind; [|intros _; apply on_budget_ret].
  apply closing_on_budget, read_loop_on_budget.
Qed.

(** X17.  The file handle on a channel that fails: whatever the channel
    accepts, either [__call__] opens, reads and closes nothing, or its log
    is the operations before the opening, the opening, the loop, and the
    closing, last, also when a [send] of the loop raised.  The second is
    the case as soon as the start message is accepted and the file
    exists. *)
Theorem file_call_closes_handle fs self (budget : nat) :
  let log := (Failing.FileResponse_call fs self budget).1.1 in
  (Forall (λ ev, negb (is_open ev || is_read ev || is_close ev)) log
   ∨ ∃ before loop,
       log = before ++ [EvOpen (FileResponse.path self)] ++ loop ++ [EvClose]
       ∧ Forall (λ ev, negb (is_open ev || is_read ev || is_close ev)) before
       ∧ Forall (λ ev, negb (is_open ev || is_close ev)) loop)
  ∧ ((0 < budget)%nat → is_Some (fs !! FileResponse.path self) →
     last log = Some EvClose
     ∧ length (filter (λ ev, is_open ev) log) = 1%nat
     ∧ length (filter (λ ev, is_close ev) log) = 1%nat).
Proof.
  cbv zeta.
  assert (Hloop : ∀ rest remaining,
    Forall (λ ev, negb (is_open ev || is_close ev))
      (Failing.read_loop rest remaining).1.1
    ∧ filter (λ ev, is_open ev) (Failing.read_loop rest remaining).1.1 = []
    ∧ filter (λ ev, is_close ev) (Failing.read_loop rest remaining).1.1 = []).
  { intros rest remaining.
    pose proof (failing_read_loop_events rest remaining) as Hev.
    induction Hev as [|ev log Hhead _ (IH1 & IH2 & IH3)]; [done|].
    destruct ev; try done; cbn in Hhead;
      (split; [by apply Forall_cons_2|]);
      by rewrite !filter_cons_False by (cbn; tauto). }
  unfold Failing.FileResponse_call, Failing.bind, Failing.send, Failing.lift,
    Failing.ret, Failing.closing, FileResponse.aio_stat, FileResponse.aio_open.
  destruct (FileResponse.stat self) as [st|];
    destruct (fs !! FileResponse.path self) as [f|] eqn:Hf;
    rewrite ?set_stat_headers_path, ?set_stat_headers_status, ?Hf;
    destruct budget as [|budget]; cbn [fst snd app];
    rewrite ?set_stat_headers_path, ?Hf; cbn [fst snd app].
  all: try (split; [left; by repeat apply Forall_cons_2|]).
  all: try (intros ?; lia).
  all: try (by intros _ [? ?]).
  all: destruct (Hloop (FileResponse.file_data f) budget) as (Hev & Hopen & Hclose).
  all: destruct (Failing.read_loop (FileResponse.file_data f) budget)
         as [[log r] remaining]; cbn [fst snd] in *.
  all: destruct r as [e|[]]; cbn [fst snd app]; rewrite ?app_nil_r.
  all: split;
    [right;
     first [eexists [_], log; split; [reflexivity|]
           |eexists [_; _], log; split; [reflexivity|]];
     split; [by repeat apply Forall_cons_2|done]
    |intros _ _].
  all: rewrite ?app_comm_cons, last_snoc.
  all: rewrite !filter_app.
  all: repeat first [rewrite filter_cons_True by done
                    |rewrite filter_cons_False by (cbn; tauto)].
  all: by rewrite Hopen, Hclose.
Qed.

End FileOnChannel.

(** ** Witnesses on the sample file system *)

(** X11, witness: [hello.txt], 5 bytes announced and 5 bytes sent. *)
Lemma file_length_matches_body_witness :
  let self := FileResponse.init "hello.txt" None None None None in
  ∃ hs announced,
    head (sent (FileResponse.call sample_fs self).1) = Some (Start 200 hs)
    ∧ values_of b_"content-length" hs = [encode_latin1 announced]
    ∧ int_of_str announced
      = Some (N.of_nat
                (length (concat (bodies (sent (FileResponse.call sample_fs self).1))))).
Proof.
  apply (file_length_matches_body sample_fs "hello.txt" None None None hello_txt).
  - reflexivity.
  - reflexivity.
  - apply not_elem_of_nil.
Defined.

(** X12, witness: [FileResponse("hello.txt", headers={"X-Id": "1"})]. *)
Lemma file_init_no_disposition_witness :
  let self := FileResponse.init "hello.txt" (Some [("X-Id", "1")]) None None None in
  values_of b_"content-disposition" (FileResponse.raw_headers self) = []
  ∧ ∀ st,
      values_of b_"content-disposition"
        (FileResponse.raw_headers (FileResponse.set_stat_headers st self)) = [].
Proof.
  apply (file_init_no_disposition "hello.txt" (Some [("X-Id", "1")]) None None).
  cbn. rewrite list_elem_of_singleton. discriminate.
Defined.

(** ** StreamingResponse: headers *)

(** X18.  A [StreamingResponse] announces no length of its own: whatever
    the headers, the media type and the chunks, the [content-length] entries
    of its header sequence are those of the caller, in order, and there is
    none when [headers] is [None]. *)
Theorem streaming_init_no_length (content : iterable) (status : Z)
    (headers : option dict) (media_type : option string) :
  values_of b_"content-length"
    (StreamingResponse.raw_headers
       (StreamingResponse.init content status headers media_type))
  = values_of b_"content-length"
      match headers with
      | Some items => lowered items
      | None => []
      end.
Proof.
  unfold StreamingResponse.init. cbn [StreamingResponse.raw_headers].
  assert (Htype : ∀ v, values_of b_"content-length" [(b_"content-type", v)] = []).
  { intros v. apply values_of_absent. rewrite list_fmap_singleton.
    rewrite list_elem_of_singleton. discriminate. }
  unfold Response.init_headers, lowered. cbv zeta.
  destruct headers as [items|]; cbv iota beta.
  - destruct media_type as [m|]; [|done].
    case_bool_decide; [|done]. by rewrite values_of_app, Htype, app_nil_r.
  - destruct media_type as [m|]; [|done]. apply Htype.
Qed.


(** ** A failing channel on a concrete input *)

(** A channel that accepts the start message only, under a stream: the
    [send] of the first chunk raises, and the chunk after it, which is no
    [str], is never looked at. *)
Example streaming_call_send_fails :
  Failing.StreamingResponse_call
    (StreamingResponse.init (AsyncIterable [Str "a"; Int 3]) 200 None None) 1
  = ([EvSend (Start 200 [])], inl SendFailed, 0%nat).
Proof. reflexivity. Qed.
